(** * InstaMini client: optimistic post store, feed pagination and session

    A shallow embedding of the client-side state layer of the application:

    - [PostContext]   (context/PostContext.jsx): the normalized post cache,
      the feed and per-user identifier lists and the optimistic actions;
    - [PostCard], [CommentList] (components): the click handlers that guard
      the actions behind the session;
    - [Feed]          (pages/Feed.jsx): the pagination driver;
    - [AuthContext]   (context/AuthContext.jsx): the session store, behind
      the response interceptor of services/api.js;
    - [Navbar], [PostDetail], [Display]: logging out, loading the post of a
      route, and the display helpers of the components.

    JavaScript objects are finite maps from property names to values, looked
    up through [Object.prototype] where the code indexes them by an
    identifier; numbers are the integer-valued doubles; React state is
    threaded explicitly, and an [async] function is a program of a small
    free monad whose [Await] nodes are the points where the function is
    suspended on a network call. *)

From stdpp Require Import gmap strings list fin_maps pretty.
From Stdlib Require Import QArith.
Local Open Scope Z_scope.

(** ** The fragment of JavaScript values the store manipulates *)

Module Js.

(** Primitive values.  Numbers are the doubles that hold an integer, and
    [NaN]: [Num n] is the double of value [n], for [n] a value a double
    has (every integer up to 2^53 in magnitude, and beyond that the
    multiples of the spacing). *)
Inductive val : Type :=
  | Undefined
  | Null
  | Bool (b : bool)
  | Num (n : Z)
  | NaN
  | Str (s : string).

#[global] Instance val_eq_dec : EqDecision val.
Proof. solve_decision. Defined.

(** A plain object: own enumerable properties by name. *)
Abbreviation obj := (gmap string val).

(** [o.f]: reading a missing property gives [undefined]. *)
Definition get (f : string) (o : obj) : val := default Undefined (o !! f).

(** ToBoolean. *)
Definition truthy (v : val) : bool :=
  match v with
  | Undefined | Null | NaN => false
  | Bool b => b
  | Num n => negb (n =? 0)
  | Str s => negb (String.eqb s "")
  end.

(** [a || b] and [!a]. *)
Definition or (a b : val) : val := if truthy a then a else b.
Definition not (a : val) : val := Bool (negb (truthy a)).

(** ToString on primitives; integers print in decimal (as JavaScript
    does below 10^21). *)
Definition to_string (v : val) : string :=
  match v with
  | Undefined => "undefined"
  | Null => "null"
  | Bool true => "true"
  | Bool false => "false"
  | Num n => pretty n
  | NaN => "NaN"
  | Str s => s
  end.

(** ToPropertyKey: [o[k]] indexes by the string form of [k], so the
    number 5 and the string "5" name the same property. *)
Definition to_key (k : val) : string := to_string k.

(** The names a plain object inherits from [Object.prototype]: [o[k]]
    finds these on every object literal, whatever its own properties. *)
Definition Object_prototype : list string :=
  ["constructor"; "__defineGetter__"; "__defineSetter__"; "hasOwnProperty";
   "__lookupGetter__"; "__lookupSetter__"; "isPrototypeOf";
   "propertyIsEnumerable"; "toString"; "valueOf"; "__proto__";
   "toLocaleString"].

Definition inherited (k : string) : bool := bool_decide (k ∈ Object_prototype).

(** What [o[k]] finds on an object literal [o] that maps names to plain
    objects: the own property, or else the member of [Object.prototype] of
    that name (a function; [Object.prototype] itself for [__proto__]). *)
Inductive entry : Type :=
  | Entity (o : obj)
  | Inherited (name : string).

#[global] Instance entry_eq_dec : EqDecision entry.
Proof. solve_decision. Defined.

(** [o[k]]; [None] is [undefined].  Whatever is found is an object, hence
    truthy. *)
Definition index (o : gmap string obj) (k : string) : option entry :=
  match o !! k with
  | Some v => Some (Entity v)
  | None => if inherited k then Some (Inherited k) else None
  end.

(** The own enumerable properties of what was found: what [{ ...e }]
    copies, and where [e.f] finds the fields the code reads.  The members
    of [Object.prototype] have none. *)
Definition props (e : entry) : obj :=
  match e with
  | Entity o => o
  | Inherited _ => ∅
  end.

(** The double nearest to the integer [z], ties to even: integers up to
    2^53 in magnitude are doubles; beyond, a double has 53 significant
    bits.  (No sum or difference the code forms leaves the finite range.) *)
Definition to_double (z : Z) : Z :=
  let a := Z.abs z in
  if a <? 2 ^ 53 then z
  else
    let e := Z.log2 a - 52 in
    let q := a / 2 ^ e in
    let r := a mod 2 ^ e in
    let half := 2 ^ (e - 1) in
    let q' := if r <? half then q
              else if half <? r then q + 1
              else if Z.even q then q else q + 1 in
    Z.sgn z * (q' * 2 ^ e).

(** [Number.MAX_SAFE_INTEGER] and [Number.isSafeInteger]. *)
Definition MAX_SAFE_INTEGER : Z := 2 ^ 53 - 1.

Definition isSafeInteger (z : Z) : Prop := - MAX_SAFE_INTEGER ≤ z ≤ MAX_SAFE_INTEGER.

Section Arith.
(** StringToNumber of ECMAScript, the numeric reading of a string
    operand, is left abstract (with values in the fragment). *)
Variable StringToNumber : string -> val.

Definition to_number (v : val) : val :=
  match v with
  | Undefined => NaN
  | Null => Num 0
  | Bool b => Num (if b then 1 else 0)
  | Num n => Num n
  | NaN => NaN
  | Str s => StringToNumber s
  end.

Definition num_op (f : Z -> Z -> Z) (a b : val) : val :=
  match to_number a, to_number b with
  | Num x, Num y => Num (f x y)
  | _, _ => NaN
  end.

(** [a - b] and [Math.max(a, b)]; a difference is rounded to a double. *)
Definition sub : val -> val -> val := num_op (fun x y => to_double (x - y)).
Definition max : val -> val -> val := num_op Z.max.

(** [a + b]: concatenation as soon as one operand is a string, else the
    sum, rounded to a double. *)
Definition add (a b : val) : val :=
  match a, b with
  | Str _, _ | _, Str _ => Str (to_string a ++ to_string b)
  | _, _ => num_op (fun x y => to_double (x + y)) a b
  end.
End Arith.

(** The insertion-ordered [Set] of JavaScript, as the list of its
    members in insertion order. *)
Definition set_add (s : list val) (x : val) : list val :=
  if decide (x ∈ s) then s else s ++ [x].

(** [new Set(iterable)]. *)
Definition new_Set (l : list val) : list val := foldl set_add [] l.

End Js.

(** ** Asynchronous programs over a state *)

Module Async.

(** The response that came with a failure, as far as the code reads it:
    [response.status] and [response.data?.error]. *)
Record Response : Type := {
  status : Js.val;
  data_error : Js.val
}.

(** A rejected request: [error.response], absent when no response was
    received, and [error.message]. *)
Record ApiError : Type := {
  response : option Response;
  error_message : Js.val
}.

(** [error.response] as a condition, [error.response?.status] and
    [error.response?.data?.error]. *)
Definition has_response (error : ApiError) : bool :=
  bool_decide (is_Some (response error)).
Definition response_status (error : ApiError) : Js.val :=
  from_option status Js.Undefined (response error).
Definition response_data_error (error : ApiError) : Js.val :=
  from_option data_error Js.Undefined (response error).

(** Payloads of the responses the client destructures. *)
Record FeedPage : Type := {
  data_posts : option (list Js.obj);   (* response.data.posts *)
  data_has_next : Js.val               (* response.data.has_next *)
}.

Record LoginData : Type := {
  data_token : Js.val;                 (* response.data.token *)
  data_user : option Js.obj            (* response.data.user *)
}.

(** The endpoints of services/api.js, indexed by the payload type. *)
Inductive Call : Type -> Type :=
  | GetById (postId : Js.val) : Call Js.obj
  | Like (postId : Js.val) : Call unit
  | Unlike (postId : Js.val) : Call unit
  | AddComment (postId : Js.val) (text : string) : Call Js.obj
  | DeletePost (postId : Js.val) : Call unit
  | DeleteComment (commentId : Js.val) : Call unit
  | GetFeed (page limit : Z) : Call FeedPage
  | Login (username password : string) : Call LoginData
  | Signup (username email password : string) : Call Js.obj.

(** What an action does besides changing state: its requests, toasts,
    console messages and navigations.  (What the response interceptor of
    services/api.js does on a 401 is modelled where the storage it clears
    is, in [AuthContext].) *)
Inductive Event : Type :=
  | Net {R : Type} (c : Call R)
  | ToastError (msg : Js.val)
  | ToastSuccess (msg : Js.val)
  | ConsoleError (label : string)
  | Navigate (path : string).

Definition is_net (ev : Event) : bool :=
  match ev with Net _ => true | _ => false end.

Section Prog.
Context {S : Type}.

(** Programs over state [S].  [Await c k h] suspends on the request [c]
    and resumes with [k] on a response and [h] on a rejection. *)
Inductive Prog (A : Type) : Type :=
  | Ret (a : A)
  | Throw (e : ApiError)
  | Update (f : S -> S) (k : Prog A)
  | Emit (ev : Event) (k : Prog A)
  | Await {R : Type} (c : Call R) (k : R -> Prog A) (h : ApiError -> Prog A).

Arguments Ret {A} a.
Arguments Throw {A} e.
Arguments Update {A} f k.
Arguments Emit {A} ev k.
Arguments Await {A R} c k h.

Fixpoint bind {A B : Type} (p : Prog A) (g : A -> Prog B) : Prog B :=
  match p with
  | Ret a => g a
  | Throw e => Throw e
  | Update f k => Update f (bind k g)
  | Emit ev k => Emit ev (bind k g)
  | Await c k h => Await c (fun r => bind (k r) g) (fun e => bind (h e) g)
  end.

(** [try { p } catch (error) { handler error }]. *)
Fixpoint try_catch {A : Type} (p : Prog A) (handler : ApiError -> Prog A) : Prog A :=
  match p with
  | Ret a => Ret a
  | Throw e => handler e
  | Update f k => Update f (try_catch k handler)
  | Emit ev k => Emit ev (try_catch k handler)
  | Await c k h =>
      Await c (fun r => try_catch (k r) handler) (fun e => try_catch (h e) handler)
  end.

(** [try { p } finally { fin }], for a [fin] that completes normally. *)
Fixpoint try_finally {A : Type} (p : Prog A) (fin : Prog unit) : Prog A :=
  match p with
  | Ret a => bind fin (fun _ => Ret a)
  | Throw e => bind fin (fun _ => Throw e)
  | Update f k => Update f (try_finally k fin)
  | Emit ev k => Emit ev (try_finally k fin)
  | Await c k h =>
      Await c (fun r => try_finally (k r) fin) (fun e => try_finally (h e) fin)
  end.

Definition await {R : Type} (c : Call R) : Prog R := Await c Ret Throw.
Definition update (f : S -> S) : Prog unit := Update f (Ret tt).
Definition emit (ev : Event) : Prog unit := Emit ev (Ret tt).

(** How a promise settles. *)
Inductive Settled (A : Type) : Type :=
  | Resolved (a : A)
  | Rejected (e : ApiError).
Arguments Resolved {A} a.
Arguments Rejected {A} e.

(** The network: every request is answered or rejected. *)
Definition Network : Type := forall R : Type, Call R -> Settled R.

(** Running an action to completion: final state, the events in the
    order they happened, and how the returned promise settled. *)
Fixpoint run {A : Type} (net : Network) (p : Prog A) (s : S)
  : S * list Event * Settled A :=
  match p with
  | Ret a => (s, [], Resolved a)
  | Throw e => (s, [], Rejected e)
  | Update f k => run net k (f s)
  | Emit ev k =>
      let '(s', tr, r) := run net k s in (s', ev :: tr, r)
  | Await c k h =>
      let '(s', tr, r) :=
        match net _ c with
        | Resolved d => run net (k d) s
        | Rejected e => run net (h e) s
        end in
      (s', Net c :: tr, r)
  end.

(** The synchronous prefix of an action: it runs until the first
    [await] and is then suspended on that request. *)
Inductive Suspended (A : Type) : Type :=
  | Done (r : Settled A)
  | Pending {R : Type} (c : Call R) (k : R -> Prog A) (h : ApiError -> Prog A).
Arguments Done {A} r.
Arguments Pending {A R} c k h.

Fixpoint start {A : Type} (p : Prog A) (s : S) : S * list Event * Suspended A :=
  match p with
  | Ret a => (s, [], Done (Resolved a))
  | Throw e => (s, [], Done (Rejected e))
  | Update f k => start k (f s)
  | Emit ev k => let '(s', tr, r) := start k s in (s', ev :: tr, r)
  | Await c k h => (s, [Net c], Pending c k h)
  end.
End Prog.

Arguments Prog : clear implicits.
Arguments Ret {S A} a.
Arguments Throw {S A} e.
Arguments Update {S A} f k.
Arguments Emit {S A} ev k.
Arguments Await {S A R} c k h.
Arguments Resolved {A} a.
Arguments Rejected {A} e.
Arguments Suspended : clear implicits.
Arguments Done {S A} r.
Arguments Pending {S A R} c k h.

(** Running an action written over a component [S] of a larger state [T]. *)
Fixpoint zoom {S T A : Type} (getS : T -> S) (setS : S -> T -> T)
    (p : Prog S A) : Prog T A :=
  match p with
  | Ret a => Ret a
  | Throw e => Throw e
  | Update f k => Update (fun t => setS (f (getS t)) t) (zoom getS setS k)
  | Emit ev k => Emit ev (zoom getS setS k)
  | Await c k h =>
      Await c (fun r => zoom getS setS (k r)) (fun e => zoom getS setS (h e))
  end.

#[global] Instance prog_ret {S : Type} : MRet (Prog S) := fun A a => Ret a.
#[global] Instance prog_bind {S : Type} : MBind (Prog S) := fun A B g p => bind p g.

End Async.

(** ** context/PostContext.jsx *)

Module PostContext.
Import Js Async.

(** The four [useState] cells of [PostProvider]. *)
Record Store : Type := {
  posts : gmap string obj;             (* posts by id *)
  feedPosts : list val;                (* feed order *)
  userPosts : gmap string (list val);  (* { username: [postIds] } *)
  loading : bool
}.

Definition initial : Store :=
  {| posts := ∅; feedPosts := []; userPosts := ∅; loading := false |}.

(** The setters of the cells, called with an updater [prev => ...]. *)
Definition setPosts (f : gmap string obj -> gmap string obj) (s : Store) : Store :=
  {| posts := f (posts s); feedPosts := feedPosts s;
     userPosts := userPosts s; loading := loading s |}.

Definition setFeedPosts (f : list val -> list val) (s : Store) : Store :=
  {| posts := posts s; feedPosts := f (feedPosts s);
     userPosts := userPosts s; loading := loading s |}.

Definition setUserPosts
    (f : gmap string (list val) -> gmap string (list val)) (s : Store) : Store :=
  {| posts := posts s; feedPosts := feedPosts s;
     userPosts := f (userPosts s); loading := loading s |}.

(** [posts[postId] || null]; [None] is [null].  [posts] is an object
    literal, so an id that names a member of [Object.prototype] finds that
    member when the cache has no entry for it. *)
Definition getPost (posts : gmap string obj) (postId : val) : option entry :=
  index posts (to_key postId).

(** [{ ...existingPost, ...updates }]: the properties of [updates] win. *)
Definition spread (existingPost updates : obj) : obj := updates ∪ existingPost.

Definition updatePost (postId : val) (updates : obj) : Store -> Store :=
  setPosts (fun prev =>
    match index prev (to_key postId) with
    | None => prev
    | Some existingPost =>
        <[to_key postId := spread (props existingPost) updates]> prev
    end).

Definition setPost (post : obj) : Store -> Store :=
  setPosts (fun prev => <[to_key (get "id" post) := post]> prev).

(** [updated[post.id] = post] in the loop of [setPostsBatch], on the own
    properties of [updated] and the prototype it has got by then ([None]:
    still [Object.prototype]).  The post becomes an own property under
    every id but [__proto__]: where neither [updated] nor a prototype it
    got holds that name as a property, the assignment reaches the setter of
    [Object.prototype], which stores nothing and makes the post the
    prototype of [updated]. *)
Definition assign (acc : gmap string obj * option obj) (post : obj)
  : gmap string obj * option obj :=
  let k := to_key (get "id" post) in
  if bool_decide (k = "__proto__") && bool_decide (acc.1 !! k = None)
     && bool_decide ((acc.2 ≫= fun proto => proto !! k) = None)
  then (acc.1, Some post)
  else (<[k := post]> acc.1, acc.2).

(** [posts] holds the own properties of a cache whose prototype is
    [Object.prototype]: a batch with the id [__proto__] leads out of these
    caches, and the prototype it leaves is not kept. *)
Definition setPostsBatch (newPosts : list obj) : Store -> Store :=
  setPosts (fun prev => (foldl assign (prev, None) newPosts).1).

Definition setFeed (postIds : list val) : Store -> Store :=
  setFeedPosts (fun _ => postIds).

Definition addToFeed (postIds : list val) : Store -> Store :=
  setFeedPosts (fun prev =>
    let existing := new_Set prev in
    foldl set_add existing postIds).

Definition setUserPostsList (username : string) (postIds : list val) : Store -> Store :=
  setUserPosts (fun prev => <[username := postIds]> prev).

Definition addNewPost (post : obj) (s : Store) : Store :=
  setFeedPosts (fun prev => get "id" post :: prev) (setPost post s).

Definition clearPosts (s : Store) : Store :=
  {| posts := ∅; feedPosts := []; userPosts := ∅; loading := loading s |}.

(** [toast.error(error.response?.data?.error || fallback)]. *)
Definition toast_error {S : Type} (error : ApiError) (fallback : string) : Prog S unit :=
  emit (ToastError (Js.or (response_data_error error) (Str fallback))).

Section Actions.
Variable StringToNumber : string -> val.

(** The actions close over [posts], the cache as of the render that
    created the callback; their updates go through [updatePost], which
    reads the current cache.  [post] is what [posts[postId]] found, read
    through its properties. *)
Definition likePost (posts : gmap string obj) (postId : val) : Prog Store unit :=
  match index posts (to_key postId) with
  | None => mret tt
  | Some found =>
      let post := props found in
      let wasLiked := Js.or (get "is_liked" post) (Bool false) in
      let oldLikeCount := Js.or (get "like_count" post) (Num 0) in
      update (updatePost postId
        {[ "is_liked" := Bool true;
           "like_count" := Js.add StringToNumber oldLikeCount (if truthy wasLiked then Num 0 else Num 1) ]});;
      try_catch
        (await (Like postId))
        (fun error =>
           update (updatePost postId
             {[ "is_liked" := wasLiked; "like_count" := oldLikeCount ]});;
           toast_error error "Failed to like post";;
           Throw error)
  end.

Definition unlikePost (posts : gmap string obj) (postId : val) : Prog Store unit :=
  match index posts (to_key postId) with
  | None => mret tt
  | Some found =>
      let post := props found in
      let wasLiked := Js.or (get "is_liked" post) (Bool false) in
      let oldLikeCount := Js.or (get "like_count" post) (Num 0) in
      update (updatePost postId
        {[ "is_liked" := Bool false;
           "like_count" :=
             Js.max StringToNumber (Num 0)
               (Js.sub StringToNumber oldLikeCount
                  (if truthy wasLiked then Num 1 else Num 0)) ]});;
      try_catch
        (await (Unlike postId))
        (fun error =>
           update (updatePost postId
             {[ "is_liked" := wasLiked; "like_count" := oldLikeCount ]});;
           toast_error error "Failed to unlike post";;
           Throw error)
  end.

(** The snapshot [toggleLike] takes of a post, and its optimistic patch. *)
Definition wasLiked (post : obj) : val := Js.or (get "is_liked" post) (Bool false).
Definition oldLikeCount (post : obj) : val := Js.or (get "like_count" post) (Num 0).

Definition toggled (post : obj) : obj :=
  {[ "is_liked" := Js.not (wasLiked post);
     "like_count" :=
       if truthy (wasLiked post)
       then Js.max StringToNumber (Num 0) (Js.sub StringToNumber (oldLikeCount post) (Num 1))
       else Js.add StringToNumber (oldLikeCount post) (Num 1) ]}.

Definition snapshot (post : obj) : obj :=
  {[ "is_liked" := wasLiked post; "like_count" := oldLikeCount post ]}.

Definition toggleLike (posts : gmap string obj) (postId : val) : Prog Store unit :=
  post ← match index posts (to_key postId) with
         | Some found => mret (props found)
         | None =>
             try_catch
               (response ← await (GetById postId);
                update (setPost response);;
                mret response)
               (fun error => toast_error error "Failed to load post";; Throw error)
         end;
  update (updatePost postId (toggled post));;
  try_catch
    (if truthy (wasLiked post) then await (Unlike postId) else await (Like postId))
    (fun error =>
       update (updatePost postId (snapshot post));;
       toast_error error "Failed to toggle like";;
       Throw error).

(** Resolves with [response.data], or with [undefined] ([None]) when the
    post is not in the cache. *)
Definition addComment (posts : gmap string obj) (postId : val) (text : string)
  : Prog Store (option obj) :=
  match index posts (to_key postId) with
  | None => mret None
  | Some found =>
      let post := props found in
      let oldCommentCount := Js.or (get "comment_count" post) (Num 0) in
      update (updatePost postId
        {[ "comment_count" := Js.add StringToNumber oldCommentCount (Num 1) ]});;
      try_catch
        (response ← await (AddComment postId text);
         emit (ToastSuccess (Str "Comment added"));;
         mret (Some response))
        (fun error =>
           update (updatePost postId {[ "comment_count" := oldCommentCount ]});;
           toast_error error "Failed to add comment";;
           Throw error)
  end.

Definition refreshPost (postId : val) : Prog Store obj :=
  try_catch
    (response ← await (GetById postId);
     update (setPost response);;
     mret response)
    (fun error => emit (ConsoleError "Failed to refresh post:");; Throw error).

End Actions.

(** Modelled from the spec: [deletePost], which the pages take from
    [usePost()] but which this revision of the provider does not define.
    Delete-post "removes the identifier from every list that references it
    and removes the entity from the cache"; the removal is applied before
    the request, and a failed request is reported and re-signalled without
    restoring what was removed.  An identifier in a list references the
    entity it is the key of: the number 7 and the string "7" reference the
    same entity. *)
Definition removePost (postId : val) (s : Store) : Store :=
  {| posts := delete (to_key postId) (posts s);
     feedPosts := filter (fun id => to_key id ≠ to_key postId) (feedPosts s);
     userPosts := filter (fun id => to_key id ≠ to_key postId) <$> userPosts s;
     loading := loading s |}.

(** Modelled from the spec: the delete-post action around [removePost]. *)
Definition deletePost (postId : val) : Prog Store unit :=
  update (removePost postId);;
  try_catch
    (await (DeletePost postId))
    (fun error => toast_error error "Failed to delete post";; Throw error).

End PostContext.

(** ** components/PostCard.jsx and components/CommentList.jsx: the handlers *)

Module PostCard.
Import Js Async.

(** The context store next to the card's own [useState] cells. *)
Record Card : Type := {
  ctx : PostContext.Store;
  commentText : string;
  isSubmitting : bool;
  isDeleting : bool
}.

Definition with_ctx (c : PostContext.Store) (s : Card) : Card :=
  {| ctx := c; commentText := commentText s;
     isSubmitting := isSubmitting s; isDeleting := isDeleting s |}.
Definition setCommentText (t : string) (s : Card) : Card :=
  {| ctx := ctx s; commentText := t;
     isSubmitting := isSubmitting s; isDeleting := isDeleting s |}.
Definition setIsSubmitting (b : bool) (s : Card) : Card :=
  {| ctx := ctx s; commentText := commentText s;
     isSubmitting := b; isDeleting := isDeleting s |}.
Definition setIsDeleting (b : bool) (s : Card) : Card :=
  {| ctx := ctx s; commentText := commentText s;
     isSubmitting := isSubmitting s; isDeleting := b |}.

(** An action of the context, run from the card. *)
Definition in_ctx {A : Type} (p : Prog PostContext.Store A) : Prog Card A :=
  zoom ctx with_ctx p.

(** [a === b] on primitives. *)
Definition strict_eq (a b : val) : bool :=
  match a, b with
  | NaN, _ | _, NaN => false
  | _, _ => bool_decide (a = b)
  end.

(** [isAuthenticated && user && post.user_id === user.id], as a condition. *)
Definition isOwnPost (isAuthenticated : bool) (user : option obj) (post : obj) : bool :=
  isAuthenticated &&
  match user with
  | None => false
  | Some u => strict_eq (get "user_id" post) (get "id" u)
  end.

Section Handlers.
Variable StringToNumber : string -> val.
(** [String.prototype.trim]. *)
Variable trim : string -> string.
(** What the render that created the handlers saw: the session, the cache
    the context callbacks close over, and the post shown. *)
Variable isAuthenticated : bool.
Variable user : option obj.
Variable posts : gmap string obj.
Variable post : obj.

Definition handleLike : Prog Card unit :=
  if negb isAuthenticated
  then emit (ToastError (Str "Please login to like posts"))
  else
    try_catch
      (in_ctx (PostContext.toggleLike StringToNumber posts (get "id" post)))
      (fun _ => mret tt).

(** [text] is the [commentText] of the render. *)
Definition handleComment (text : string) : Prog Card unit :=
  if negb (truthy (Str (trim text))) || negb isAuthenticated
  then mret tt
  else
    update (setIsSubmitting true);;
    try_finally
      (try_catch
         (in_ctx (PostContext.addComment StringToNumber posts (get "id" post) text);;
          update (setCommentText ""))
         (fun _ => mret tt))
      (update (setIsSubmitting false)).

(** [confirmed] is the answer to [window.confirm]. *)
Definition handleDelete (confirmed : bool) : Prog Card unit :=
  if negb (isOwnPost isAuthenticated user post) then mret tt
  else if negb confirmed then mret tt
  else
    update (setIsDeleting true);;
    try_finally
      (try_catch
         (in_ctx (PostContext.deletePost (get "id" post)))
         (fun _ => mret tt))
      (update (setIsDeleting false)).

End Handlers.
End PostCard.

Module CommentList.
Import Js Async.

Record Comments : Type := {
  ctx : PostContext.Store;
  comments : list obj;
  loading : bool;
  deletingCommentId : val
}.

Definition with_ctx (c : PostContext.Store) (s : Comments) : Comments :=
  {| ctx := c; comments := comments s; loading := loading s;
     deletingCommentId := deletingCommentId s |}.
Definition setComments (f : list obj -> list obj) (s : Comments) : Comments :=
  {| ctx := ctx s; comments := f (comments s); loading := loading s;
     deletingCommentId := deletingCommentId s |}.
Definition setDeletingCommentId (v : val) (s : Comments) : Comments :=
  {| ctx := ctx s; comments := comments s; loading := loading s;
     deletingCommentId := v |}.

Section Handlers.
(** [deleteComment] comes from [usePost()]; the provider at hand does not
    define it, so the handler is stated for any such action. *)
Variable deleteComment : val -> val -> Prog PostContext.Store unit.
Variable onCommentDeleted : option (Prog Comments unit).
Variable isAuthenticated : bool.
Variable user : option obj.
Variable postId : val.

Definition handleDeleteComment (commentId : val) (confirmed : bool) : Prog Comments unit :=
  if negb isAuthenticated || negb (bool_decide (is_Some user))
  then emit (ToastError (Str "Please login to delete comments"))
  else if negb confirmed then mret tt
  else
    update (setDeletingCommentId commentId);;
    try_finally
      (try_catch
         (zoom ctx with_ctx (deleteComment commentId postId);;
          update (setComments
            (filter (fun c => PostCard.strict_eq (get "id" c) commentId = false)));;
          match onCommentDeleted with Some callback => callback | None => mret tt end;;
          emit (ToastSuccess (Str "Comment deleted successfully")))
         (fun _ => mret tt))
      (update (setDeletingCommentId Null)).

End Handlers.
End CommentList.

(** ** pages/Feed.jsx: the pagination driver *)

Module Feed.
Import Js Async.

Record FeedState : Type := {
  ctx : PostContext.Store;
  loading : bool;
  page : Z;
  hasMore : val;
  loadingMore : bool
}.

Definition initial (c : PostContext.Store) : FeedState :=
  {| ctx := c; loading := true; page := 1; hasMore := Bool true; loadingMore := false |}.

Definition on_ctx (f : PostContext.Store -> PostContext.Store) (s : FeedState) : FeedState :=
  {| ctx := f (ctx s); loading := loading s; page := page s;
     hasMore := hasMore s; loadingMore := loadingMore s |}.
Definition setLocalLoading (b : bool) (s : FeedState) : FeedState :=
  {| ctx := ctx s; loading := b; page := page s;
     hasMore := hasMore s; loadingMore := loadingMore s |}.
Definition setPage (f : Z -> Z) (s : FeedState) : FeedState :=
  {| ctx := ctx s; loading := loading s; page := f (page s);
     hasMore := hasMore s; loadingMore := loadingMore s |}.
Definition setHasMore (v : val) (s : FeedState) : FeedState :=
  {| ctx := ctx s; loading := loading s; page := page s;
     hasMore := v; loadingMore := loadingMore s |}.
Definition setLoadingMore (b : bool) (s : FeedState) : FeedState :=
  {| ctx := ctx s; loading := loading s; page := page s;
     hasMore := hasMore s; loadingMore := b |}.

(** [feedPosts.map((postId) => posts[postId]).filter(Boolean)]. *)
Definition postsList (s : FeedState) : list entry :=
  omap (fun postId => index (PostContext.posts (ctx s)) (to_key postId))
       (PostContext.feedPosts (ctx s)).

(** [fetchFeed] closes over [page]. *)
Definition fetchFeed (page : Z) : Prog FeedState unit :=
  try_finally
    (try_catch
       ((if page =? 1 then update (setLocalLoading true)
         else update (setLoadingMore true));;
        response ← await (GetFeed page 10);
        let newPosts := default [] (data_posts response) in
        update (on_ctx (PostContext.setPostsBatch newPosts));;
        let postIds := map (get "id") newPosts in
        (if page =? 1 then update (on_ctx (PostContext.setFeed postIds))
         else update (on_ctx (PostContext.addToFeed postIds)));;
        update (setHasMore (Js.or (data_has_next response) (Bool false))))
       (fun error =>
          emit (ToastError
            (Js.or (response_data_error error)
               (Js.or (error_message error) (Str "Failed to load feed"))));;
          emit (ConsoleError "Feed loading error:")))
    (update (setLocalLoading false);; update (setLoadingMore false)).

(** [page] is a number: [prev + 1] is the sum as a double. *)
Definition handleLoadMore (s : FeedState) : FeedState :=
  if negb (loadingMore s) && truthy (hasMore s)
  then setPage (fun prev => to_double (prev + 1)) s
  else s.

(** The component between renders: its state, the fetches that were
    issued and have not settled, and everything it did so far. *)
Record Mounted : Type := {
  state : FeedState;
  inflight : list (Suspended FeedState unit);
  log : list Event
}.

(** Calling an async function: its synchronous prefix runs at once. *)
Definition spawn (p : Prog FeedState unit) (m : Mounted) : Mounted :=
  let '(s, tr, susp) := start p (state m) in
  {| state := s;
     inflight := match susp with
                 | Done _ => inflight m
                 | Pending _ _ _ => inflight m ++ [susp]
                 end;
     log := log m ++ tr |}.

Section Component.
(** The session is fixed while the page is mounted. *)
Variable isAuthenticated : bool.

(** The body of [useEffect(..., [isAuthenticated, fetchFeed])]. *)
Definition effect (m : Mounted) : Mounted :=
  if isAuthenticated then spawn (fetchFeed (page (state m))) m
  else {| state := setLocalLoading false (state m);
          inflight := inflight m; log := log m |}.

(** First render, then the effect. *)
Definition mount (c : PostContext.Store) : Mounted :=
  effect {| state := initial c; inflight := []; log := [] |}.

(** The Load More button is in the page only past the early returns and
    under [hasMore &&]; it is [disabled={loadingMore}]. *)
Definition button_rendered (s : FeedState) : bool :=
  isAuthenticated && negb (loading s) &&
  negb (bool_decide (postsList s = [])) && truthy (hasMore s).

Definition button_enabled (s : FeedState) : bool :=
  button_rendered s && negb (loadingMore s).

(** A call of [handleLoadMore] in the mounted page: the effect runs
    again if [page], hence [fetchFeed], changed. *)
Definition call_handleLoadMore (m : Mounted) : Mounted :=
  let s := handleLoadMore (state m) in
  let m' := {| state := s; inflight := inflight m; log := log m |} in
  if page s =? page (state m) then m' else effect m'.

(** A click on Load More: the handler runs if the button can be clicked. *)
Definition loadMore (m : Mounted) : Mounted :=
  if button_enabled (state m) then call_handleLoadMore m else m.

(** The [i]-th pending fetch settles as the network decides. *)
Definition settle (net : Network) (i : nat) (m : Mounted) : Mounted :=
  match inflight m !! i with
  | Some (Pending c k h) =>
      let rest := {| state := state m; inflight := delete i (inflight m); log := log m |} in
      spawn (match net _ c with Resolved d => k d | Rejected e => h e end) rest
  | _ => m
  end.

(** Cards and other pages write to the shared store meanwhile. *)
Definition elsewhere (f : PostContext.Store -> PostContext.Store) (m : Mounted) : Mounted :=
  {| state := on_ctx f (state m); inflight := inflight m; log := log m |}.

Inductive reachable : Mounted -> Prop :=
| reach_mount c : reachable (mount c)
| reach_loadMore m : reachable m -> reachable (loadMore m)
| reach_settle net i m : reachable m -> reachable (settle net i m)
| reach_elsewhere f m : reachable m -> reachable (elsewhere f m).

End Component.
End Feed.

(** ** context/AuthContext.jsx: the session store *)

Module AuthContext.
Import Js Async.

(** A value that may also be an object: what [JSON.parse] returns and what
    the [user] cell holds. *)
Inductive any : Type :=
| Prim (v : val)
| Object (o : obj).

Definition truthy_any (a : any) : bool :=
  match a with Prim v => truthy v | Object _ => true end.

(** The [user] and [token] cells, and the two [localStorage] entries
    ([None] where [getItem] returns [null]). *)
Record Session : Type := {
  user : any;
  token : val;
  loading : bool;
  stored_token : option string;
  stored_user : option string
}.

Definition initial (storedToken storedUser : option string) : Session :=
  {| user := Prim Null; token := Null; loading := true;
     stored_token := storedToken; stored_user := storedUser |}.

Definition setUser (u : any) (s : Session) : Session :=
  {| user := u; token := token s; loading := loading s;
     stored_token := stored_token s; stored_user := stored_user s |}.
Definition setToken (t : val) (s : Session) : Session :=
  {| user := user s; token := t; loading := loading s;
     stored_token := stored_token s; stored_user := stored_user s |}.
Definition setLoading (b : bool) (s : Session) : Session :=
  {| user := user s; token := token s; loading := b;
     stored_token := stored_token s; stored_user := stored_user s |}.
(** [localStorage.setItem] / [removeItem] on the two keys. *)
Definition store_token (v : option string) (s : Session) : Session :=
  {| user := user s; token := token s; loading := loading s;
     stored_token := v; stored_user := stored_user s |}.
Definition store_user (v : option string) (s : Session) : Session :=
  {| user := user s; token := token s; loading := loading s;
     stored_token := stored_token s; stored_user := v |}.

Definition clear_storage (s : Session) : Session :=
  store_user None (store_token None s).

(** [isAuthenticated: !!token && !!user]. *)
Definition isAuthenticated (s : Session) : bool :=
  truthy (token s) && truthy_any (user s).

(** The payload [jwtDecode] returns, as far as it is read: [exp?: number]. *)
Record JwtPayload : Type := { exp : option Q }.

(** [decoded.exp > currentTime]; a missing [exp] compares false. *)
Definition exp_after (decoded : JwtPayload) (currentTime : Q) : bool :=
  match exp decoded with
  | Some e => negb (Qle_bool e currentTime)
  | None => false
  end.

(** [getItem] result as a condition: [null] and the empty string are falsy. *)
Definition present (item : option string) : bool :=
  match item with Some v => truthy (Str v) | None => false end.

(** What the handlers return to the forms. *)
Record Outcome : Type := {
  success : bool;
  error : val;
  message : val
}.

Section Provider.
(** [jwtDecode] and [JSON.parse] throw on malformed input ([None]);
    [JSON.stringify] serializes the user. *)
Variable jwtDecode : string -> option JwtPayload.
Variable JSON_parse : string -> option any.
Variable JSON_stringify : any -> string.

(** The mount effect, at [Date.now() = now] milliseconds;
    [currentTime = Date.now() / 1000] is the quotient itself; the double
    the code holds is the one nearest to it, which turns the comparison
    only for an [exp] less than that rounding above the quotient.  The
    [catch] branch
    (a throwing [jwtDecode] or [JSON.parse]) clears the storage; its
    [console.error] is not recorded. *)
Definition restore (now : Z) (s : Session) : Session :=
  let storedToken := stored_token s in
  let storedUser := stored_user s in
  setLoading false
    (if present storedToken && present storedUser then
       match jwtDecode (default "" storedToken) with
       | Some decoded =>
           let currentTime := (inject_Z now / 1000)%Q in
           if exp_after decoded currentTime then
             let s1 := setToken (Str (default "" storedToken)) s in
             match JSON_parse (default "" storedUser) with
             | Some u => setUser u s1
             | None => clear_storage s1
             end
           else clear_storage s
       | None => clear_storage s
       end
     else s).

(** services/api.js, the response interceptor every request goes through:
    on a 401 it removes both stored entries before the rejection reaches
    the caller.  It also assigns [window.location.href], which loads the
    page anew once the running handlers are done; that is the browser's
    doing and not among the events of the action. *)
Definition unauthorized (error : ApiError) : bool :=
  bool_decide (response_status error = Num 401).

Definition api {R : Type} (c : Call R) : Prog Session R :=
  Await c Ret
    (fun error =>
       if unauthorized error then update clear_storage;; Throw error
       else Throw error).

Definition failure (error : ApiError) (fallback : string) : Outcome :=
  if negb (has_response error)
  then {| success := false;
          error := Str "Network error. Please check if the server is running.";
          message := Undefined |}
  else {| success := false;
          error := Js.or (response_data_error error)
                     (Js.or (error_message error) (Str fallback));
          message := Undefined |}.

Definition login (username password : string) : Prog Session Outcome :=
  try_catch
    (response ← api (Login username password);
     let newToken := data_token response in
     let userData := data_user response in
     match userData with
     | Some userData =>
         if negb (truthy newToken)
         then mret {| success := false; error := Str "Invalid response from server";
                      message := Undefined |}
         else
           update (store_token (Some (to_string newToken)));;
           update (store_user (Some (JSON_stringify (Object userData))));;
           update (setToken newToken);;
           update (setUser (Object userData));;
           mret {| success := true; error := Undefined; message := Undefined |}
     | None =>
         mret {| success := false; error := Str "Invalid response from server";
                 message := Undefined |}
     end)
    (fun error => emit (ConsoleError "Login error:");; mret (failure error "Login failed")).

Definition signup (username email password : string) : Prog Session Outcome :=
  try_catch
    (response ← api (Signup username email password);
     update (store_token None);;
     update (store_user None);;
     update (setToken Null);;
     update (setUser (Prim Null));;
     mret {| success := true; error := Undefined;
             message := Js.or (get "message" response) (Str "Account created successfully") |})
    (fun error => emit (ConsoleError "Signup error:");; mret (failure error "Signup failed")).

Definition logout (s : Session) : Session :=
  setUser (Prim Null) (setToken Null (clear_storage s)).

Definition updateUser (userData : any) (s : Session) : Session :=
  store_user (Some (JSON_stringify userData)) (setUser userData s).

(** What can happen to a session after it was created. *)
Inductive Op : Type :=
| DoLogin (username password : string)
| DoSignup (username email password : string)
| DoLogout
| DoUpdateUser (userData : any).

Definition is_login (o : Op) : bool :=
  match o with DoLogin _ _ => true | _ => false end.

Definition perform (net : Network) (o : Op) (s : Session) : Session :=
  match o with
  | DoLogin u p => (run net (login u p) s).1.1
  | DoSignup u e p => (run net (signup u e p) s).1.1
  | DoLogout => logout s
  | DoUpdateUser d => updateUser d s
  end.

End Provider.
End AuthContext.

(** ** Vocabulary of the statements *)

Import Js Async.

(** How an action reports a refusal: an error toast, or a rejected promise. *)
Definition is_error_toast (ev : Event) : bool :=
  match ev with ToastError _ => true | _ => false end.

Definition signals_failure {A : Type} (tr : list Event) (r : Settled A) : bool :=
  existsb is_error_toast tr || match r with Rejected _ => true | Resolved _ => false end.

(** An action refused for want of a session: the state is as before, no
    request went out, and the refusal was reported. *)
Definition refused_unauthenticated {S A : Type}
    (before : S) (result : S * list Event * Settled A) : Prop :=
  result.1.1 = before ∧
  existsb is_net result.1.2 = false ∧
  signals_failure result.1.2 result.2 = true.

(** The request [toggleLike] issues for a post in the cache. *)
Definition toggle_call (post : obj) (postId : val) : Event :=
  if truthy (PostContext.wasLiked post) then Net (Unlike postId) else Net (Like postId).

Definition toggle_call_fails (net : Network) (post : obj) (postId : val)
    (error : ApiError) : Prop :=
  if truthy (PostContext.wasLiked post)
  then net unit (Unlike postId) = Rejected error
  else net unit (Like postId) = Rejected error.

(** A call of [toggleLike] from a render that is up to date: the callback
    closes over the cache of the state it is run in. *)
Definition toggleLike_now (StringToNumber : string -> val) (net : Network)
    (postId : val) (s : PostContext.Store) :=
  run net (PostContext.toggleLike StringToNumber (PostContext.posts s) postId) s.

(** A network on which every request succeeds, and one on which every
    request is rejected with [error]. *)
Definition net_ok (fetched : obj) : Network :=
  fun R c =>
    match c in Call R return Settled R with
    | GetById _ => Resolved fetched
    | Like _ | Unlike _ | DeletePost _ | DeleteComment _ => Resolved tt
    | AddComment _ _ | Signup _ _ _ => Resolved ∅
    | GetFeed _ _ => Resolved {| data_posts := None; data_has_next := Undefined |}
    | Login _ _ => Resolved {| data_token := Undefined; data_user := None |}
    end.

Definition net_down (error : ApiError) : Network := fun R c => Rejected error.

Definition offline : ApiError :=
  {| response := None; error_message := Str "Network Error" |}.

(** A rejection by the server: wrong credentials, answered with a 401. *)
Definition wrong_password : ApiError :=
  {| response := Some {| status := Num 401;
                         data_error := Str "Invalid username or password" |};
     error_message := Str "Request failed with status code 401" |}.

(** A stand-in for StringToNumber where no string reaches arithmetic. *)
Definition no_numeric_strings : string -> val := fun _ => NaN.

(** A small store to evaluate on: post 7, not liked, 5 likes. *)
Definition sample_post : obj :=
  {[ "id" := Num 7; "user_id" := Num 3; "caption" := Str "hi";
     "is_liked" := Bool false; "like_count" := Num 5; "comment_count" := Num 2 ]}.

Definition sample_store : PostContext.Store :=
  PostContext.setUserPostsList "ann" [Num 7; Num 8]
    (PostContext.setFeed [Num 7; Num 8] (PostContext.setPost sample_post PostContext.initial)).

(** A cached post that claims to be liked while counting no likes. *)
Definition inconsistent_post : obj :=
  {[ "id" := Num 7; "is_liked" := Bool true; "like_count" := Num 0 ]}.

Definition inconsistent_store : PostContext.Store :=
  PostContext.setPost inconsistent_post PostContext.initial.

(** A cached post with as many likes as a double counts one by one. *)
Definition saturated_post : obj :=
  {[ "id" := Num 7; "is_liked" := Bool false; "like_count" := Num (2 ^ 53) ]}.

Definition saturated_store : PostContext.Store :=
  PostContext.setPost saturated_post PostContext.initial.

(** [trim] on ASCII text, to evaluate the comment handler. *)
Fixpoint trim_start (s : string) : string :=
  match s with
  | String c rest => if Ascii.is_space c then trim_start rest else s
  | EmptyString => EmptyString
  end.

Definition ascii_trim (s : string) : string :=
  String.rev (trim_start (String.rev (trim_start s))).

Definition sample_card : PostCard.Card :=
  {| PostCard.ctx := sample_store; PostCard.commentText := "nice";
     PostCard.isSubmitting := false; PostCard.isDeleting := false |}.

(** The fetch a call of [fetchFeed] is suspended on: request and
    continuations do not depend on the state it was called in. *)
Definition fetch_pending (page : Z) : Suspended Feed.FeedState unit :=
  (start (Feed.fetchFeed page) (Feed.initial PostContext.initial)).2.

(** Between renders at most one fetch is pending, and while one is, one of
    the two loading flags is up. *)
Definition one_fetch_flagged (m : Feed.Mounted) : Prop :=
  match Feed.inflight m with
  | [] => True
  | [susp] =>
      (∃ page, susp = fetch_pending page) ∧
      (Feed.loading (Feed.state m) = true ∨ Feed.loadingMore (Feed.state m) = true)
  | _ => False
  end.

(** A server whose feed has a single, last page. *)
Definition net_last_page : Network :=
  fun R c =>
    match c in Call R return Settled R with
    | GetFeed _ _ =>
        Resolved {| data_posts := Some [sample_post]; data_has_next := Bool false |}
    | c' => net_ok sample_post _ c'
    end.

Definition feed_loading_first : Feed.Mounted := Feed.mount true PostContext.initial.

Definition feed_exhausted : Feed.Mounted := Feed.settle net_last_page 0 feed_loading_first.

(** A server with two pages: posts 7 and 8, then 8 again and 9. *)
Definition post_numbered (n : Z) : obj :=
  {[ "id" := Num n; "is_liked" := Bool false; "like_count" := Num 0 ]}.

Definition net_two_pages : Network :=
  fun R c =>
    match c in Call R return Settled R with
    | GetFeed p _ =>
        if p =? 1
        then Resolved {| data_posts := Some [post_numbered 7; post_numbered 8];
                         data_has_next := Bool true |}
        else Resolved {| data_posts := Some [post_numbered 8; post_numbered 9];
                         data_has_next := Bool false |}
    | c' => net_ok sample_post _ c'
    end.

(** Mount, first page arrives, Load More, second page arrives. *)
Definition feed_after_two_pages : Feed.Mounted :=
  Feed.settle net_two_pages 0
    (Feed.loadMore true
       (Feed.settle net_two_pages 0 (Feed.mount true PostContext.initial))).

(** Stand-ins for [jwtDecode], [JSON.parse] and [JSON.stringify] on two
    tokens and one user. *)
Definition sample_jwtDecode (t : string) : option AuthContext.JwtPayload :=
  if String.eqb t "expired.jwt" then Some {| AuthContext.exp := Some (inject_Z 1700000000) |}
  else if String.eqb t "fresh.jwt" then Some {| AuthContext.exp := Some (inject_Z 1900000000) |}
  else None.

Definition sample_user : obj := {[ "id" := Num 3; "username" := Str "ann" ]}.

Definition sample_JSON_parse (u : string) : option AuthContext.any :=
  if String.eqb u "ann.json" then Some (AuthContext.Object sample_user) else None.

Definition sample_JSON_stringify (u : AuthContext.any) : string := "ann.json".

(** A session that is logged in. *)
Definition logged_in : AuthContext.Session :=
  {| AuthContext.user := AuthContext.Object sample_user;
     AuthContext.token := Str "fresh.jwt";
     AuthContext.loading := false;
     AuthContext.stored_token := Some "fresh.jwt";
     AuthContext.stored_user := Some "ann.json" |}.

(** The liked and counted state of a post, for posts typed as the server
    sends them. *)
Definition like_state (post : obj) (S : bool) (C : Z) : Prop :=
  post !! "is_liked" = Some (Bool S) ∧ post !! "like_count" = Some (Num C).

(** The scenario of the spec: not liked with 5 likes; a first toggle
    succeeds; a second one fails at the network. *)
Definition after_first_toggle : PostContext.Store :=
  (toggleLike_now no_numeric_strings (net_ok ∅) (Num 7) sample_store).1.1.

Definition liked_post : obj :=
  <["is_liked" := Bool true]> (<["like_count" := Num 6]> sample_post).

(** ** components/Navbar.jsx: logging out *)

Module Navbar.

(** The two providers the bar reaches into. *)
Record App : Type := {
  session : AuthContext.Session;
  store : PostContext.Store
}.

(** [logout(); clearPosts(); navigate('/login')]. *)
Definition handleLogout (a : App) : App * list Event :=
  ({| session := AuthContext.logout (session a);
      store := PostContext.clearPosts (store a) |},
   [Navigate "/login"]).

End Navbar.

(** ** pages/PostDetail.jsx: loading and liking the post of the route *)

Module PostDetail.

Record Detail : Type := {
  ctx : PostContext.Store;
  loading : bool;
  commentText : string;
  isSubmitting : bool;
  isDeleting : bool
}.

Definition with_ctx (c : PostContext.Store) (s : Detail) : Detail :=
  {| ctx := c; loading := loading s; commentText := commentText s;
     isSubmitting := isSubmitting s; isDeleting := isDeleting s |}.
Definition setLoading (b : bool) (s : Detail) : Detail :=
  {| ctx := ctx s; loading := b; commentText := commentText s;
     isSubmitting := isSubmitting s; isDeleting := isDeleting s |}.

Section Handlers.
Variable StringToNumber : string -> val.
(** The render's session and the cache its [getPost] and [toggleLike]
    close over; [id] is the route parameter. *)
Variable isAuthenticated : bool.
Variable posts : gmap string obj.
Variable id : val.

Definition fetchPost : Prog Detail unit :=
  try_finally
    (try_catch
       (update (setLoading true);;
        match PostContext.getPost posts id with
        | Some _ => mret tt
        | None =>
            response ← await (GetById id);
            update (fun s => with_ctx (PostContext.setPost response (ctx s)) s)
        end)
       (fun error =>
          PostContext.toast_error error "Failed to load post";;
          emit (Navigate "/")))
    (update (setLoading false)).

Definition handleLike : Prog Detail unit :=
  if negb isAuthenticated
  then emit (ToastError (Str "Please login to like posts"));; emit (Navigate "/login")
  else
    try_catch
      (zoom ctx with_ctx (PostContext.toggleLike StringToNumber posts id))
      (fun _ => mret tt).

End Handlers.
End PostDetail.

(** ** Display helpers of the components *)

Module Display.

Section FormatDate.
(** [Date.prototype.toLocaleDateString], on the time value of the date
    ([None] for an invalid date). *)
Variable toLocaleDateString : option Z -> string.

(** [formatDate] of PostCard, on the time value [date] that
    [new Date(dateString)] holds and the current time [now], both in
    milliseconds.  With an invalid date every comparison is false. *)
Definition formatDate (now : Z) (date : option Z) : string :=
  match date with
  | None => toLocaleDateString date
  | Some t =>
      let diffInSeconds := (now - t) / 1000 in
      if diffInSeconds <? 60 then "just now"
      else if diffInSeconds <? 3600 then pretty (diffInSeconds / 60) ++ "m ago"
      else if diffInSeconds <? 86400 then pretty (diffInSeconds / 3600) ++ "h ago"
      else if diffInSeconds <? 604800 then pretty (diffInSeconds / 86400) ++ "d ago"
      else toLocaleDateString date
  end.
End FormatDate.

(** [s.startsWith(p)]. *)
Definition startsWith (s p : string) : bool := String.prefix p s.

(** [normalizeProfilePicUrl] of CommentList and Explore; [VITE_API_URL] is
    the build-time setting.  [None] is the TypeError of calling
    [startsWith] on a truthy value that is not a string. *)
Definition normalizeProfilePicUrl (VITE_API_URL : val) (url : val) : option val :=
  if negb (truthy url) then Some url
  else
    match url with
    | Str u =>
        if startsWith u "http://" || startsWith u "https://" then Some url
        else if startsWith u "/" then
          let apiBaseUrl := Js.or VITE_API_URL (Str "http://localhost:5000") in
          Some (Str (to_string apiBaseUrl ++ u))
        else Some url
    | _ => None
    end.

End Display.

(** ** More vocabulary *)

(** Calls of the other actions from a render that is up to date. *)
Definition likePost_now (StringToNumber : string -> val) (net : Network)
    (postId : val) (s : PostContext.Store) :=
  run net (PostContext.likePost StringToNumber (PostContext.posts s) postId) s.

Definition unlikePost_now (StringToNumber : string -> val) (net : Network)
    (postId : val) (s : PostContext.Store) :=
  run net (PostContext.unlikePost StringToNumber (PostContext.posts s) postId) s.

Definition addComment_now (StringToNumber : string -> val) (net : Network)
    (postId : val) (text : string) (s : PostContext.Store) :=
  run net (PostContext.addComment StringToNumber (PostContext.posts s) postId text) s.

(** The property key a post is cached under. *)
Definition key_of (post : obj) : string := to_key (get "id" post).

(** The requests among the events. *)
Definition requests (evs : list Event) : list Event := filter (fun ev => is_net ev = true) evs.

(** The feed requests for pages [1..n], in order. *)
Definition page_requests (n : Z) : list Event :=
  (fun p => Net (GetFeed p 10)) <$> seqZ 1 n.

(** A server that accepts the login of the sample user. *)
Definition net_login : Network :=
  fun R c =>
    match c in Call R return Settled R with
    | Login _ _ =>
        Resolved {| data_token := Str "fresh.jwt"; data_user := Some sample_user |}
    | c' => net_ok ∅ _ c'
    end.

(** The detail page of a post, still loading. *)
Definition sample_detail : PostDetail.Detail :=
  {| PostDetail.ctx := sample_store; PostDetail.loading := true;
     PostDetail.commentText := ""; PostDetail.isSubmitting := false;
     PostDetail.isDeleting := false |}.

(** ** Facts about the insertion-ordered set *)

Section SetFacts.
Implicit Types (s l : list val) (x : val).

Lemma set_add_elem s x y : y ∈ set_add s x ↔ y ∈ s ∨ y = x.
Proof.
  unfold set_add. case_decide as Hx.
  - split; [by left|]. intros [?| ->]; done.
  - by rewrite elem_of_app, list_elem_of_singleton.
Qed.

Lemma set_add_NoDup s x : NoDup s → NoDup (set_add s x).
Proof.
  intros Hs. unfold set_add. case_decide as Hx; [done|].
  apply NoDup_app. split_and!; [done| |apply NoDup_singleton].
  intros y Hy ->%list_elem_of_singleton. done.
Qed.

Lemma set_add_prefix s x : s `prefix_of` set_add s x.
Proof. unfold set_add. case_decide; [done|]. by apply prefix_app_r. Qed.

Lemma fold_add_elem l : ∀ s y, y ∈ foldl set_add s l ↔ y ∈ s ∨ y ∈ l.
Proof.
  induction l as [|x l IH]; intros s y; simpl.
  - rewrite elem_of_nil. tauto.
  - rewrite IH, set_add_elem, elem_of_cons. tauto.
Qed.

Lemma fold_add_NoDup l : ∀ s, NoDup s → NoDup (foldl set_add s l).
Proof.
  induction l as [|x l IH]; intros s Hs; simpl; [done|].
  by apply IH, set_add_NoDup.
Qed.

Lemma fold_add_prefix l : ∀ s, s `prefix_of` foldl set_add s l.
Proof.
  induction l as [|x l IH]; intros s; simpl; [done|].
  etrans; [apply set_add_prefix | apply IH].
Qed.

(** Adding members the set already has changes nothing. *)
Lemma fold_add_present l : ∀ s, (∀ x, x ∈ l → x ∈ s) → foldl set_add s l = s.
Proof.
  induction l as [|x l IH]; intros s Hl; simpl; [done|].
  assert (set_add s x = s) as ->.
  { unfold set_add. rewrite decide_True; [done|]. apply Hl. by left. }
  apply IH. intros y Hy. apply Hl. by right.
Qed.

(** A list without duplicates is its own set. *)
Lemma fold_add_fresh l : ∀ s, NoDup (s ++ l) → foldl set_add s l = s ++ l.
Proof.
  induction l as [|x l IH]; intros s Hs; simpl; [by rewrite app_nil_r|].
  assert (x ∉ s) as Hx.
  { apply NoDup_app in Hs as (_ & Hs & _). intros Hin. apply (Hs x Hin). by left. }
  unfold set_add at 2. rewrite decide_False by done.
  rewrite IH; rewrite <- (assoc_L (++)); done.
Qed.

Lemma new_Set_NoDup l : NoDup (new_Set l).
Proof. apply fold_add_NoDup, NoDup_nil_2. Qed.

Lemma new_Set_elem l x : x ∈ new_Set l ↔ x ∈ l.
Proof. unfold new_Set. rewrite fold_add_elem, elem_of_nil. tauto. Qed.

Lemma new_Set_id l : NoDup l → new_Set l = l.
Proof. intros Hl. unfold new_Set. by rewrite fold_add_fresh. Qed.

(** [Array.from] of the set built from [prev] and then fed [ids] lists
    the members of [prev ++ ids] by first appearance. *)
Lemma fold_add_new_Set prev ids : foldl set_add (new_Set prev) ids = new_Set (prev ++ ids).
Proof. unfold new_Set. by rewrite foldl_app. Qed.

End SetFacts.

(** ** Facts about property lookup and about rounding *)

Section JsFacts.
Implicit Types (o : gmap string obj) (k : string).

Lemma index_own o k v : o !! k = Some v → index o k = Some (Entity v).
Proof. unfold index. by intros ->. Qed.

Lemma index_inherited o k :
  o !! k = None → inherited k = true → index o k = Some (Inherited k).
Proof. unfold index. by intros -> ->. Qed.

Lemma index_missing o k : o !! k = None → inherited k = false → index o k = None.
Proof. unfold index. by intros -> ->. Qed.

(** [o[k]] is [undefined] exactly when [k] is neither an own property nor
    a name of [Object.prototype]. *)
Lemma index_None o k : index o k = None ↔ o !! k = None ∧ inherited k = false.
Proof.
  unfold index. destruct (o !! k); [by split; [|intros []]|].
  destruct (inherited k); by split; [|intros []].
Qed.

(** The inherited names are those of the list. *)
Lemma inherited_names k : inherited k = true ↔ k ∈ Object_prototype.
Proof. unfold inherited. apply bool_decide_eq_true. Qed.

(** Integers up to 2^53 in magnitude are doubles. *)
Lemma to_double_exact (z : Z) : - 2 ^ 53 ≤ z ≤ 2 ^ 53 → to_double z = z.
Proof.
  change (2 ^ 53) with 9007199254740992. intros Hz. unfold to_double.
  change (2 ^ 53) with 9007199254740992.
  destruct (Z.ltb_spec (Z.abs z) 9007199254740992) as [|Hge]; [done|].
  assert (z = 9007199254740992 ∨ z = - 9007199254740992) as [-> | ->] by lia;
    vm_compute; reflexivity.
Qed.

Lemma to_double_safe (z : Z) : isSafeInteger z → to_double z = z.
Proof.
  unfold isSafeInteger, MAX_SAFE_INTEGER. change (2 ^ 53) with 9007199254740992.
  intros Hz. apply to_double_exact. change (2 ^ 53) with 9007199254740992. lia.
Qed.

(** Next to a safe integer the sum and the difference with 1 are exact. *)
Lemma to_double_succ (z : Z) : isSafeInteger z → to_double (z + 1) = z + 1.
Proof.
  unfold isSafeInteger, MAX_SAFE_INTEGER. change (2 ^ 53) with 9007199254740992.
  intros Hz. apply to_double_exact. change (2 ^ 53) with 9007199254740992. lia.
Qed.

Lemma to_double_pred (z : Z) : isSafeInteger z → to_double (z - 1) = z - 1.
Proof.
  unfold isSafeInteger, MAX_SAFE_INTEGER. change (2 ^ 53) with 9007199254740992.
  intros Hz. apply to_double_exact. change (2 ^ 53) with 9007199254740992. lia.
Qed.

(** At 2^53 adding 1 is lost in the rounding. *)
Lemma to_double_absorbs : to_double (2 ^ 53 + 1) = 2 ^ 53.
Proof. vm_compute. reflexivity. Qed.

End JsFacts.

(** ** The feed list: [addToFeed] *)

Section FeedList.
Import PostContext.

Lemma addToFeed_feed ids s : feedPosts (addToFeed ids s) = new_Set (feedPosts s ++ ids).
Proof. simpl. apply fold_add_new_Set. Qed.

Lemma addToFeed_frame ids s :
  posts (addToFeed ids s) = posts s ∧ userPosts (addToFeed ids s) = userPosts s ∧
  loading (addToFeed ids s) = loading s.
Proof. done. Qed.

Lemma store_eq (s1 s2 : Store) :
  posts s1 = posts s2 → feedPosts s1 = feedPosts s2 → userPosts s1 = userPosts s2 →
  loading s1 = loading s2 → s1 = s2.
Proof. destruct s1, s2; simpl; congruence. Qed.




End FeedList.

(** ** Running programs *)

Ltac prog_simpl :=
  cbn [mbind mret prog_bind prog_ret bind try_catch try_finally
       update emit await run start zoom fst snd props].

Lemma run_bind {S A B : Type} (net : Network) (p : Prog S A) (g : A → Prog S B) (s : S) :
  run net (bind p g) s =
    match run net p s with
    | (s1, tr1, Resolved a) =>
        let '(s2, tr2, r) := run net (g a) s1 in (s2, tr1 ++ tr2, r)
    | (s1, tr1, Rejected e) => (s1, tr1, Rejected e)
    end.
Proof.
  revert s. induction p as [a|e|f k IH|ev k IH|R c k IHk h IHh]; intros s; simpl.
  - by destruct (run net (g a) s) as [[s2 tr2] r].
  - done.
  - apply IH.
  - rewrite IH. destruct (run net k s) as [[s1 tr1] [a|e]]; [|done].
    by destruct (run net (g a) s1) as [[s2 tr2] r].
  - destruct (net R c) as [d|e].
    + rewrite IHk. destruct (run net (k d) s) as [[s1 tr1] [a|e]]; [|done].
      by destruct (run net (g a) s1) as [[s2 tr2] r].
    + rewrite IHh. destruct (run net (h e) s) as [[s1 tr1] [a|e']]; [|done].
      by destruct (run net (g a) s1) as [[s2 tr2] r].
Qed.

Lemma run_try_catch {S A : Type} (net : Network) (p : Prog S A)
    (handler : ApiError → Prog S A) (s : S) :
  run net (try_catch p handler) s =
    match run net p s with
    | (s1, tr1, Resolved a) => (s1, tr1, Resolved a)
    | (s1, tr1, Rejected e) =>
        let '(s2, tr2, r) := run net (handler e) s1 in (s2, tr1 ++ tr2, r)
    end.
Proof.
  revert s. induction p as [a|e|f k IH|ev k IH|R c k IHk h IHh]; intros s; simpl.
  - done.
  - by destruct (run net (handler e) s) as [[s2 tr2] r].
  - apply IH.
  - rewrite IH. destruct (run net k s) as [[s1 tr1] [a|e]]; [done|].
    by destruct (run net (handler e) s1) as [[s2 tr2] r].
  - destruct (net R c) as [d|e].
    + rewrite IHk. destruct (run net (k d) s) as [[s1 tr1] [a|e]]; [done|].
      by destruct (run net (handler e) s1) as [[s2 tr2] r].
    + rewrite IHh. destruct (run net (h e) s) as [[s1 tr1] [a|e']]; [done|].
      by destruct (run net (handler e') s1) as [[s2 tr2] r].
Qed.

(** An action of a component, run inside the larger state, does to the
    component what it does alone and leaves the rest in place. *)
Lemma run_zoom {S T A : Type} (getS : T → S) (setS : S → T → T)
    (net : Network) (p : Prog S A) (t : T) :
  (∀ s t', getS (setS s t') = s) →
  (∀ s s' t', setS s (setS s' t') = setS s t') →
  (∀ t', setS (getS t') t' = t') →
  run net (zoom getS setS p) t =
    let '(s1, tr, r) := run net p (getS t) in (setS s1 t, tr, r).
Proof.
  intros Hget Hset Hid. revert t.
  induction p as [a|e|f k IH|ev k IH|R c k IHk h IHh]; intros t; simpl.
  - by rewrite Hid.
  - by rewrite Hid.
  - rewrite IH, Hget. destruct (run net k (f (getS t))) as [[s1 tr] r].
    by rewrite Hset.
  - rewrite IH. by destruct (run net k (getS t)) as [[s1 tr] r].
  - destruct (net R c) as [d|e].
    + rewrite IHk. by destruct (run net (k d) (getS t)) as [[s1 tr] r].
    + rewrite IHh. by destruct (run net (h e) (getS t)) as [[s1 tr] r].
Qed.

(** ** The entity cache: [updatePost] *)

Section Cache.
Import PostContext.

Lemma spread_lookup (existingPost updates : obj) (f : string) :
  spread existingPost updates !! f =
    match updates !! f with Some v => Some v | None => existingPost !! f end.
Proof.
  unfold spread. destruct (updates !! f) as [v|] eqn:Hf.
  - by apply lookup_union_Some_l.
  - by rewrite lookup_union_r.
Qed.

Lemma updatePost_absent postId updates s :
  index (posts s) (to_key postId) = None → updatePost postId updates s = s.
Proof. intros Hk. destruct s. unfold updatePost, setPosts. simpl in *. by rewrite Hk. Qed.

Lemma updatePost_present postId updates s existingPost :
  posts s !! to_key postId = Some existingPost →
  posts (updatePost postId updates s)
    = <[to_key postId := spread existingPost updates]> (posts s).
Proof. intros Hk. simpl. by rewrite (index_own _ _ _ Hk). Qed.

(** An id that names a member of [Object.prototype] passes the guard
    without an entry: the patch becomes the entry. *)
Lemma updatePost_inherited postId updates s :
  posts s !! to_key postId = None → inherited (to_key postId) = true →
  posts (updatePost postId updates s) = <[to_key postId := updates]> (posts s).
Proof.
  intros Hk Hin. simpl. rewrite (index_inherited _ _ Hk Hin). simpl.
  unfold spread. by rewrite (right_id_L ∅ (∪)).
Qed.

(** Patching an identifier that is not in the cache and names no member
    of [Object.prototype] changes nothing and creates no entry.  Patching a
    cached entity sets exactly the named fields: every field the patch
    names takes the patch's value, every other field of the entity keeps
    its value, every other entity and the key set of the cache are as
    before, and the lists are untouched. *)
Theorem updatePost_merges_named_fields
    (postId : val) (updates : obj) (s : Store) :
  (posts s !! to_key postId = None → inherited (to_key postId) = false →
     updatePost postId updates s = s ∧
     posts (updatePost postId updates s) !! to_key postId = None) ∧
  (∀ existingPost, posts s !! to_key postId = Some existingPost →
     (∃ patched,
        posts (updatePost postId updates s) !! to_key postId = Some patched ∧
        (∀ f v, updates !! f = Some v → patched !! f = Some v) ∧
        (∀ f, updates !! f = None → patched !! f = existingPost !! f)) ∧
     (∀ k, k ≠ to_key postId →
        posts (updatePost postId updates s) !! k = posts s !! k) ∧
     dom (posts (updatePost postId updates s)) = dom (posts s) ∧
     feedPosts (updatePost postId updates s) = feedPosts s ∧
     userPosts (updatePost postId updates s) = userPosts s ∧
     loading (updatePost postId updates s) = loading s).
Proof.
  split.
  - intros Hk Hin. by rewrite (updatePost_absent _ _ _ (index_missing _ _ Hk Hin)).
  - intros existingPost Hk. rewrite (updatePost_present _ _ _ _ Hk). split_and!.
    + exists (spread existingPost updates). split_and!.
      * apply lookup_insert_eq.
      * intros f v Hf. by rewrite spread_lookup, Hf.
      * intros f Hf. by rewrite spread_lookup, Hf.
    + intros k Hne. by rewrite lookup_insert_ne.
    + apply dom_insert_lookup_L. by rewrite Hk.
    + done.
    + done.
    + done.
Qed.

Lemma updatePost_merges_named_fields_witness :
  (posts sample_store !! to_key (Num 9) = None ∧ inherited (to_key (Num 9)) = false ∧
   updatePost (Num 9) {[ "like_count" := Num 6 ]} sample_store = sample_store) ∧
  (posts sample_store !! to_key (Num 7) = Some sample_post ∧
   ∃ patched,
     posts (updatePost (Num 7) {[ "like_count" := Num 6 ]} sample_store) !! to_key (Num 7)
       = Some patched ∧
     patched !! "like_count" = Some (Num 6) ∧
     patched !! "caption" = sample_post !! "caption").
Proof.
  assert (posts sample_store !! to_key (Num 9) = None) as Habsent
    by (vm_compute; reflexivity).
  assert (posts sample_store !! to_key (Num 7) = Some sample_post) as Hpresent
    by (vm_compute; reflexivity).
  split.
  - split; [exact Habsent|]. split; [reflexivity|].
    apply (updatePost_merges_named_fields (Num 9) {[ "like_count" := Num 6 ]} sample_store);
      [exact Habsent | reflexivity].
  - split; [exact Hpresent|].
    destruct (proj2 (updatePost_merges_named_fields (Num 7) {[ "like_count" := Num 6 ]}
                       sample_store) sample_post Hpresent)
      as ((patched & Hp & Hnamed & Hother) & _).
    exists patched. split_and!.
    + exact Hp.
    + apply Hnamed. vm_compute; reflexivity.
    + apply Hother. vm_compute; reflexivity.
Defined.

(** C6 (the defect). [updatePost] tests [prev[postId]] on an object
    literal, and that finds the members of [Object.prototype] under their
    names: the cache without any entry has none for "constructor", yet
    patching "constructor" passes the guard and leaves an entry made of the
    patch alone, where the claim has a no-op that creates no entry. *)
Theorem updatePost_creates_entry_for_inherited_name :
  let patch : obj := {[ "comment_count" := Num 1 ]} in
  let s := updatePost (Str "constructor") patch initial in
  posts initial !! to_key (Str "constructor") = None ∧
  posts s !! to_key (Str "constructor") = Some patch ∧
  s ≠ initial.
Proof.
  cbv zeta. split_and!.
  - reflexivity.
  - rewrite updatePost_inherited by reflexivity. apply lookup_insert_eq.
  - intros Heq.
    apply (f_equal (fun st => posts st !! to_key (Str "constructor"))) in Heq.
    rewrite updatePost_inherited in Heq by reflexivity.
    rewrite lookup_insert_eq in Heq. discriminate.
Qed.

End Cache.

(** ** The optimistic actions *)

Section Optimistic.
Import PostContext.
Variable StringToNumber : string → val.
Implicit Types (net : Network) (s : Store) (post : obj) (postId : val) (error : ApiError).
Local Abbreviation toggled := (toggled StringToNumber).

Lemma or_num_zero (c : Z) : Js.or (Num c) (Num 0) = Num c.
Proof. unfold Js.or. simpl. destruct (Z.eqb_spec c 0); by subst. Qed.

Lemma or_bool_false (b : bool) : Js.or (Bool b) (Bool false) = Bool b.
Proof. by destruct b. Qed.

Lemma patch2_lookup (a b : val) (f : string) :
  ({[ "is_liked" := a; "like_count" := b ]} : obj) !! f =
    if decide (f = "is_liked") then Some a
    else if decide (f = "like_count") then Some b else None.
Proof.
  repeat case_decide; subst.
  - apply lookup_insert_eq.
  - rewrite lookup_insert_ne by done. apply lookup_singleton_eq.
  - rewrite lookup_insert_ne by done. by apply lookup_singleton_ne.
Qed.

Lemma toggled_lookup post f :
  toggled post !! f =
    if decide (f = "is_liked") then Some (Js.not (wasLiked post))
    else if decide (f = "like_count") then
      Some (if truthy (wasLiked post)
            then Js.max StringToNumber (Num 0)
                   (Js.sub StringToNumber (oldLikeCount post) (Num 1))
            else Js.add StringToNumber (oldLikeCount post) (Num 1))
    else None.
Proof. apply patch2_lookup. Qed.

Lemma snapshot_lookup post f :
  snapshot post !! f =
    if decide (f = "is_liked") then Some (wasLiked post)
    else if decide (f = "like_count") then Some (oldLikeCount post) else None.
Proof. apply patch2_lookup. Qed.

(** Rolling back after the optimistic patch is patching the original
    post with the snapshot. *)
Lemma rollback_spread post :
  spread (spread post (toggled post)) (snapshot post) = spread post (snapshot post).
Proof.
  apply map_eq. intros f.
  rewrite !spread_lookup, snapshot_lookup, toggled_lookup.
  repeat case_decide; done.
Qed.

(** A post whose two like fields hold a boolean and a number is its own
    snapshot. *)
Lemma snapshot_typed post (b : bool) (c : Z) :
  post !! "is_liked" = Some (Bool b) → post !! "like_count" = Some (Num c) →
  spread post (snapshot post) = post.
Proof.
  intros Hb Hc. apply map_eq. intros f.
  rewrite spread_lookup, snapshot_lookup. unfold wasLiked, oldLikeCount, get.
  repeat case_decide; subst; rewrite ?Hb, ?Hc; simpl;
    by rewrite ?or_num_zero, ?or_bool_false.
Qed.

Lemma updatePost_twice postId u1 u2 s existingPost :
  posts s !! to_key postId = Some existingPost →
  posts (updatePost postId u2 (updatePost postId u1 s))
    = <[to_key postId := spread (spread existingPost u1) u2]> (posts s).
Proof.
  intros Hk.
  rewrite (updatePost_present postId u2 _ (spread existingPost u1)).
  - rewrite (updatePost_present _ _ _ _ Hk). apply insert_insert_eq.
  - rewrite (updatePost_present _ _ _ _ Hk). apply lookup_insert_eq.
Qed.

Lemma updatePost_lists postId u s :
  feedPosts (updatePost postId u s) = feedPosts s ∧
  userPosts (updatePost postId u s) = userPosts s ∧
  loading (updatePost postId u s) = loading s.
Proof. done. Qed.

(** What a call of [toggleLike] on a cached post does, by outcome of its
    request. *)
Lemma toggleLike_cached_failure net s postId post error :
  posts s !! to_key postId = Some post →
  toggle_call_fails net post postId error →
  toggleLike_now StringToNumber net postId s =
    (updatePost postId (snapshot post) (updatePost postId (toggled post) s),
     [toggle_call post postId;
      ToastError (Js.or (response_data_error error) (Str "Failed to toggle like"))],
     Rejected error).
Proof.
  intros Hk Hfail. unfold toggleLike_now, toggleLike, toggle_call_fails, toggle_call in *.
  rewrite (index_own _ _ _ Hk). prog_simpl.
  destruct (truthy (wasLiked post)); prog_simpl; by rewrite Hfail.
Qed.

Lemma toggleLike_cached_success net s postId post :
  posts s !! to_key postId = Some post →
  net unit (Like postId) = Resolved tt → net unit (Unlike postId) = Resolved tt →
  toggleLike_now StringToNumber net postId s =
    (updatePost postId (toggled post) s, [toggle_call post postId], Resolved tt).
Proof.
  intros Hk Hlike Hunlike. unfold toggleLike_now, toggleLike, toggle_call.
  rewrite (index_own _ _ _ Hk). prog_simpl.
  destruct (truthy (wasLiked post)); prog_simpl; by rewrite ?Hlike, ?Hunlike.
Qed.

(** C1. When the request issued by [toggleLike] for a cached post fails,
    the call settles as rejected with that error, after one request and one
    error toast, and the post's [is_liked] and [like_count] are the values
    this call captured before its optimistic patch ([wasLiked],
    [oldLikeCount]), whatever the state was before any earlier toggle.
    Every other field, every other post and the lists are as before; when
    the two fields held a boolean and a number, the store is exactly the
    store before the call. *)
Theorem toggleLike_failure_restores_snapshot net s postId post error :
  posts s !! to_key postId = Some post →
  toggle_call_fails net post postId error →
  ∃ s' restored,
    toggleLike_now StringToNumber net postId s =
      (s',
       [toggle_call post postId;
        ToastError (Js.or (response_data_error error) (Str "Failed to toggle like"))],
       Rejected error) ∧
    posts s' !! to_key postId = Some restored ∧
    get "is_liked" restored = wasLiked post ∧
    get "like_count" restored = oldLikeCount post ∧
    (∀ f, f ≠ "is_liked" → f ≠ "like_count" → restored !! f = post !! f) ∧
    (∀ k, k ≠ to_key postId → posts s' !! k = posts s !! k) ∧
    feedPosts s' = feedPosts s ∧ userPosts s' = userPosts s ∧
    (∀ (b : bool) (c : Z),
       post !! "is_liked" = Some (Bool b) → post !! "like_count" = Some (Num c) →
       s' = s).
Proof.
  intros Hk Hfail.
  eexists _, (spread post (snapshot post)).
  split; [by apply toggleLike_cached_failure|].
  assert (posts (updatePost postId (snapshot post) (updatePost postId (toggled post) s))
          = <[to_key postId := spread post (snapshot post)]> (posts s)) as Hposts.
  { rewrite (updatePost_twice _ _ _ _ _ Hk). by rewrite rollback_spread. }
  rewrite Hposts. split_and!.
  - apply lookup_insert_eq.
  - unfold get at 1. by rewrite spread_lookup, snapshot_lookup.
  - unfold get at 1. by rewrite spread_lookup, snapshot_lookup.
  - intros f Hf1 Hf2. rewrite spread_lookup, snapshot_lookup.
    by rewrite !decide_False.
  - intros k Hne. by rewrite lookup_insert_ne.
  - done.
  - done.
  - intros b c Hb Hc. apply store_eq; try done.
    rewrite Hposts, (snapshot_typed _ _ _ Hb Hc). by apply insert_id.
Qed.

Lemma toggled_typed post (S : bool) (C : Z) :
  like_state post S C →
  like_state (spread post (toggled post)) (negb S)
    (if S then Z.max 0 (to_double (C - 1)) else to_double (C + 1)).
Proof.
  intros [Hb Hc]. unfold like_state. rewrite !spread_lookup, !toggled_lookup.
  rewrite decide_True by done. rewrite decide_False by done. rewrite decide_True by done.
  unfold wasLiked, oldLikeCount, get. rewrite Hb, Hc. simpl.
  rewrite or_bool_false, or_num_zero. by destruct S.
Qed.

(** For a count that is a safe integer the toggle counts exactly. *)
Lemma toggled_safe post (S : bool) (C : Z) :
  like_state post S C → isSafeInteger C →
  like_state (spread post (toggled post)) (negb S)
    (if S then Z.max 0 (C - 1) else C + 1).
Proof.
  intros Hst Hsafe. pose proof (toggled_typed _ _ _ Hst) as Hst1.
  by rewrite (to_double_succ _ Hsafe), (to_double_pred _ Hsafe) in Hst1.
Qed.

(** C2 (as amended). Two calls of [toggleLike] in a row, both requests
    succeeding, bring a cached post back to its like state S and count C,
    and the whole store back to what it was, provided the count was
    consistent with the state (C >= 1 when the post was liked, C >= 0 when
    it was not) and no more than [Number.MAX_SAFE_INTEGER], so that
    counting one up or down is exact. *)
Theorem toggleLike_twice_restores net s postId post (S : bool) (C : Z) :
  posts s !! to_key postId = Some post →
  like_state post S C →
  (if S then 1 ≤ C else 0 ≤ C) →
  C ≤ MAX_SAFE_INTEGER →
  net unit (Like postId) = Resolved tt →
  net unit (Unlike postId) = Resolved tt →
  ∃ s1 post1,
    toggleLike_now StringToNumber net postId s
      = (s1, [toggle_call post postId], Resolved tt) ∧
    posts s1 !! to_key postId = Some post1 ∧
    like_state post1 (negb S) (if S then C - 1 else C + 1) ∧
    toggleLike_now StringToNumber net postId s1
      = (s, [toggle_call post1 postId], Resolved tt).
Proof.
  intros Hk Hst Hrange Hmax Hlike Hunlike.
  assert (isSafeInteger C) as Hsafe.
  { unfold isSafeInteger, MAX_SAFE_INTEGER in *. destruct S; lia. }
  pose proof (toggled_safe _ _ _ Hst Hsafe) as Hst1.
  assert (posts (updatePost postId (toggled post) s) !! to_key postId
          = Some (spread post (toggled post))) as Hk1.
  { rewrite (updatePost_present _ _ _ _ Hk). apply lookup_insert_eq. }
  exists (updatePost postId (toggled post) s), (spread post (toggled post)).
  split_and!.
  - by apply toggleLike_cached_success.
  - exact Hk1.
  - destruct S; [|done]. by rewrite Z.max_r in Hst1 by lia.
  - rewrite (toggleLike_cached_success _ _ _ _ Hk1 Hlike Hunlike).
    f_equal. f_equal. apply store_eq; try done.
    rewrite (updatePost_twice _ _ _ _ _ Hk).
    apply insert_id. rewrite Hk. f_equal.
    pose proof (toggled_typed _ _ _ Hst1) as [Hb2 Hc2].
    destruct Hst as [Hb Hc].
    apply map_eq. intros f.
    destruct (decide (f = "is_liked")) as [->|Hf1].
    { rewrite Hb2, Hb. by rewrite negb_involutive. }
    destruct (decide (f = "like_count")) as [->|Hf2].
    { rewrite Hc2, Hc. do 2 f_equal. destruct S; simpl.
      - rewrite Z.max_r by lia. replace (C - 1 + 1) with C by lia.
        symmetry. by apply to_double_safe.
      - replace (C + 1 - 1) with C by lia. rewrite (to_double_safe _ Hsafe). lia. }
    rewrite !spread_lookup, !toggled_lookup. by rewrite !decide_False.
Qed.

(** For an identifier that is not in the cache the callback closes over
    and names no member of [Object.prototype], [likePost], [unlikePost] and
    [addComment] resolve at once: the state is unchanged, nothing is
    requested, no toast is shown and nothing is thrown; [toggleLike]
    instead starts by requesting the post. *)
Theorem actions_return_on_absent_post net (cache : gmap string obj) s postId text :
  cache !! to_key postId = None → inherited (to_key postId) = false →
  run net (likePost StringToNumber cache postId) s = (s, [], Resolved tt) ∧
  run net (unlikePost StringToNumber cache postId) s = (s, [], Resolved tt) ∧
  run net (addComment StringToNumber cache postId text) s = (s, [], Resolved None) ∧
  ∃ s' tr r,
    run net (toggleLike StringToNumber cache postId) s
      = (s', Net (GetById postId) :: tr, r).
Proof.
  intros Hk Hin. unfold likePost, unlikePost, addComment, toggleLike.
  rewrite (index_missing _ _ Hk Hin).
  split_and!; try done.
  prog_simpl. destruct (net obj (GetById postId)) as [fetched|e]; prog_simpl.
  - match goal with
    | |- context [run net ?p ?st] => destruct (run net p st) as [[s' tr] r]
    end.
    by eexists _, _, _.
  - by eexists _, _, _.
Qed.

(** [deletePost] as the spec describes it: after a delete, however the
    request settles, no list (the feed and every per-user list) holds an
    identifier that references the post, in whatever form (7 or "7"), and
    the cache has no entry for it; [getPost] then answers [null] unless the
    identifier names a member of [Object.prototype].  Identifiers of other
    posts stay in the lists, in order, and other entries in the cache. *)
Lemma deletePost_removes_everywhere net s postId :
  ∃ s' tr r,
    run net (deletePost postId) s = (s', tr, r) ∧
    (∀ id, id ∈ feedPosts s' → to_key id ≠ to_key postId) ∧
    map_Forall (fun _ ids => ∀ id, id ∈ ids → to_key id ≠ to_key postId) (userPosts s') ∧
    posts s' !! to_key postId = None ∧
    (inherited (to_key postId) = false → getPost (posts s') postId = None) ∧
    (∀ k, k ≠ to_key postId → posts s' !! k = posts s !! k) ∧
    feedPosts s' = filter (fun id => to_key id ≠ to_key postId) (feedPosts s) ∧
    dom (userPosts s') = dom (userPosts s).
Proof.
  assert (∃ tr r, run net (deletePost postId) s = (removePost postId s, tr, r))
    as (tr & r & Hrun).
  { unfold deletePost. prog_simpl.
    destruct (net unit (DeletePost postId)); by eexists _, _. }
  exists (removePost postId s), tr, r. split; [exact Hrun|]. split_and!.
  - simpl. by intros id [Hne _]%list_elem_of_filter.
  - intros username ids. simpl. rewrite lookup_fmap.
    destruct (userPosts s !! username) as [l|]; simpl; [|done].
    intros [= <-]. by intros id [Hne _]%list_elem_of_filter.
  - simpl. apply lookup_delete_eq.
  - intros Hin. unfold getPost. apply index_missing; [|done].
    simpl. apply lookup_delete_eq.
  - intros k Hne. simpl. by rewrite lookup_delete_ne.
  - done.
  - simpl. apply dom_fmap_L.
Qed.

End Optimistic.

Section OptimisticRuns.
Import PostContext.

(** The scenario of the spec: not liked with 5 likes; a first toggle
    succeeds; a second one fails at the network. *)
Lemma toggleLike_failure_restores_snapshot_witness :
  posts after_first_toggle !! to_key (Num 7) = Some liked_post ∧
  toggle_call_fails (net_down offline) liked_post (Num 7) offline ∧
  ∃ s' restored,
    toggleLike_now no_numeric_strings (net_down offline) (Num 7) after_first_toggle
      = (s', [Net (Unlike (Num 7)); ToastError (Str "Failed to toggle like")],
         Rejected offline) ∧
    posts s' !! to_key (Num 7) = Some restored ∧
    get "is_liked" restored = Bool true ∧
    get "like_count" restored = Num 6 ∧
    s' = after_first_toggle.
Proof.
  assert (posts after_first_toggle !! to_key (Num 7) = Some liked_post) as Hk
    by (vm_compute; reflexivity).
  assert (toggle_call_fails (net_down offline) liked_post (Num 7) offline) as Hfail
    by reflexivity.
  split; [exact Hk|]. split; [exact Hfail|].
  destruct (toggleLike_failure_restores_snapshot no_numeric_strings
              (net_down offline) after_first_toggle (Num 7) liked_post offline Hk Hfail)
    as (s' & restored & Hrun & Hpost & Hliked & Hcount & _ & _ & _ & _ & Hsame).
  exists s', restored. split_and!.
  - exact Hrun.
  - exact Hpost.
  - exact Hliked.
  - exact Hcount.
  - apply (Hsame true 6); reflexivity.
Defined.

Lemma toggleLike_twice_restores_witness :
  posts sample_store !! to_key (Num 7) = Some sample_post ∧
  like_state sample_post false 5 ∧
  ∃ s1 post1,
    toggleLike_now no_numeric_strings (net_ok ∅) (Num 7) sample_store
      = (s1, [Net (Like (Num 7))], Resolved tt) ∧
    posts s1 !! to_key (Num 7) = Some post1 ∧
    like_state post1 true 6 ∧
    toggleLike_now no_numeric_strings (net_ok ∅) (Num 7) s1
      = (sample_store, [toggle_call post1 (Num 7)], Resolved tt).
Proof.
  assert (posts sample_store !! to_key (Num 7) = Some sample_post) as Hk
    by (vm_compute; reflexivity).
  assert (like_state sample_post false 5) as Hst by (split; reflexivity).
  split; [exact Hk|]. split; [exact Hst|].
  apply (toggleLike_twice_restores no_numeric_strings (net_ok ∅) sample_store
           (Num 7) sample_post false 5 Hk Hst);
    [lia | by vm_compute | reflexivity | reflexivity].
Defined.

(** A post liked with a count of zero: the unlike clamps at zero, the
    like that follows counts one, and the count does not come back. *)
Lemma toggleLike_twice_clamped :
  posts inconsistent_store !! to_key (Num 7) = Some inconsistent_post ∧
  like_state inconsistent_post true 0 ∧
  let first := toggleLike_now no_numeric_strings (net_ok ∅) (Num 7) inconsistent_store in
  let second := toggleLike_now no_numeric_strings (net_ok ∅) (Num 7) first.1.1 in
  first.2 = Resolved tt ∧ second.2 = Resolved tt ∧
  (get "like_count" <$> posts second.1.1 !! to_key (Num 7)) = Some (Num 1) ∧
  (get "is_liked" <$> posts second.1.1 !! to_key (Num 7)) = Some (Bool true) ∧
  second.1.1 ≠ inconsistent_store.
Proof.
  split; [vm_compute; reflexivity|]. split; [split; reflexivity|].
  cbv zeta. split_and!; try (vm_compute; reflexivity).
  intros Heq.
  apply (f_equal (fun st => get "like_count" <$> posts st !! to_key (Num 7))) in Heq.
  vm_compute in Heq. discriminate.
Qed.

(** A post that counts 2^53 likes: the like is lost in the rounding of
    2^53 + 1, the unlike that follows counts one down, and the count does
    not come back either. *)
Lemma toggleLike_twice_rounded :
  posts saturated_store !! to_key (Num 7) = Some saturated_post ∧
  like_state saturated_post false (2 ^ 53) ∧
  let first := toggleLike_now no_numeric_strings (net_ok ∅) (Num 7) saturated_store in
  let second := toggleLike_now no_numeric_strings (net_ok ∅) (Num 7) first.1.1 in
  first.2 = Resolved tt ∧ second.2 = Resolved tt ∧
  (get "like_count" <$> posts first.1.1 !! to_key (Num 7)) = Some (Num (2 ^ 53)) ∧
  (get "like_count" <$> posts second.1.1 !! to_key (Num 7)) = Some (Num (2 ^ 53 - 1)) ∧
  (get "is_liked" <$> posts second.1.1 !! to_key (Num 7)) = Some (Bool false).
Proof.
  split; [vm_compute; reflexivity|]. split; [split; reflexivity|].
  cbv zeta. split_and!; vm_compute; reflexivity.
Qed.

Lemma actions_return_on_absent_post_witness :
  posts sample_store !! to_key (Num 9) = None ∧
  run (net_ok ∅) (likePost no_numeric_strings (posts sample_store) (Num 9)) sample_store
    = (sample_store, [], Resolved tt) ∧
  run (net_ok ∅) (unlikePost no_numeric_strings (posts sample_store) (Num 9)) sample_store
    = (sample_store, [], Resolved tt) ∧
  run (net_ok ∅) (addComment no_numeric_strings (posts sample_store) (Num 9) "nice")
      sample_store
    = (sample_store, [], Resolved None).
Proof.
  assert (posts sample_store !! to_key (Num 9) = None) as Hk by (vm_compute; reflexivity).
  split; [exact Hk|].
  destruct (actions_return_on_absent_post no_numeric_strings (net_ok ∅)
              (posts sample_store) sample_store (Num 9) "nice" Hk eq_refl)
    as (Hlike & Hunlike & Hcomment & _).
  split_and!; assumption.
Defined.

(** C10 (the defect). The actions test [posts[postId]] on an object
    literal, and that finds the members of [Object.prototype] under their
    names.  The cache without any entry has none for "constructor", yet
    none of the three actions returns there: each patches the store, which
    creates an entry made of the patch alone, and sends its request. *)
Theorem actions_run_on_inherited_name :
  let id := Str "constructor" in
  let ran {A : Type} (p : Prog Store A) := run (net_ok ∅) p initial in
  posts initial !! to_key id = None ∧
  ran (likePost no_numeric_strings (posts initial) id)
    = (updatePost id {[ "is_liked" := Bool true; "like_count" := Num 1 ]} initial,
       [Net (Like id)], Resolved tt) ∧
  ran (unlikePost no_numeric_strings (posts initial) id)
    = (updatePost id {[ "is_liked" := Bool false; "like_count" := Num 0 ]} initial,
       [Net (Unlike id)], Resolved tt) ∧
  ran (addComment no_numeric_strings (posts initial) id "nice")
    = (updatePost id {[ "comment_count" := Num 1 ]} initial,
       [Net (AddComment id "nice"); ToastSuccess (Str "Comment added")],
       Resolved (Some ∅)) ∧
  posts (updatePost id {[ "comment_count" := Num 1 ]} initial) !! to_key id
    = Some {[ "comment_count" := Num 1 ]}.
Proof.
  cbv zeta. split_and!; reflexivity.
Qed.


End OptimisticRuns.

(** ** The handlers and the session *)

Section Guards.
Import PostContext.

(** The comment handler without a session returns without a word: the
    state is untouched and nothing is requested, but neither is anything
    reported, so the action is not refused with an outcome. *)
Lemma handleComment_without_session_is_silent :
  let result :=
    run (net_ok ∅)
      (PostCard.handleComment no_numeric_strings ascii_trim false
         (posts sample_store) sample_post "nice")
      sample_card in
  result = (sample_card, [], Resolved tt) ∧
  ¬ refused_unauthenticated sample_card result.
Proof.
  cbv zeta. split; [reflexivity|].
  intros (_ & _ & Hsignal). vm_compute in Hsignal. discriminate.
Qed.

(** C4 (as amended). The session is checked by the handlers of the pages,
    not by the actions of the context.  Run without a session, each of
    [handleLike], [handleComment], [handleDelete] and [handleDeleteComment]
    leaves the state as it was and requests nothing; [handleLike] and
    [handleDeleteComment] show a "Please login" error, [handleComment] and
    [handleDelete] return silently. *)
Theorem handlers_stop_without_session
    (StringToNumber : string → val) (trim : string → string)
    (deleteComment : val → val → Prog Store unit)
    (onCommentDeleted : option (Prog CommentList.Comments unit))
    (net : Network) (user : option obj) (cache : gmap string obj) (post : obj)
    (text : string) (confirmed : bool) (postId commentId : val)
    (card : PostCard.Card) (list : CommentList.Comments) :
  run net (PostCard.handleLike StringToNumber false cache post) card
    = (card, [ToastError (Str "Please login to like posts")], Resolved tt) ∧
  run net (PostCard.handleComment StringToNumber trim false cache post text) card
    = (card, [], Resolved tt) ∧
  run net (PostCard.handleDelete false user post confirmed) card
    = (card, [], Resolved tt) ∧
  run net (CommentList.handleDeleteComment deleteComment onCommentDeleted
             false user postId commentId confirmed) list
    = (list, [ToastError (Str "Please login to delete comments")], Resolved tt) ∧
  refused_unauthenticated card
    (run net (PostCard.handleLike StringToNumber false cache post) card) ∧
  refused_unauthenticated list
    (run net (CommentList.handleDeleteComment deleteComment onCommentDeleted
                false user postId commentId confirmed) list).
Proof.
  unfold PostCard.handleLike, PostCard.handleComment, PostCard.handleDelete,
    CommentList.handleDeleteComment, PostCard.isOwnPost, refused_unauthenticated.
  rewrite orb_true_r. simpl. done.
Qed.

(** With a session the like handler does reach the network. *)
Lemma handleLike_with_session :
  run (net_ok ∅)
    (PostCard.handleLike no_numeric_strings true (posts sample_store) sample_post)
    sample_card
  = (PostCard.with_ctx
       (updatePost (Num 7) (toggled no_numeric_strings sample_post) sample_store)
       sample_card,
     [Net (Like (Num 7))], Resolved tt).
Proof. vm_compute. reflexivity. Qed.

End Guards.

(** ** Pagination *)

Section Pagination.
Import Feed.
Variable isAuthenticated : bool.
Implicit Types (m : Mounted) (s : FeedState).

(** A call of [fetchFeed] raises one loading flag and is suspended on the
    page request. *)
Lemma start_fetchFeed (p : Z) s :
  start (fetchFeed p) s =
    (if p =? 1 then setLocalLoading true s else setLoadingMore true s,
     [Net (GetFeed p 10)], fetch_pending p).
Proof. unfold fetch_pending, fetchFeed. destruct (p =? 1); reflexivity. Qed.

Lemma spawn_fetchFeed (p : Z) m :
  spawn (fetchFeed p) m =
    {| state := if p =? 1 then setLocalLoading true (state m)
                else setLoadingMore true (state m);
       inflight := inflight m ++ [fetch_pending p];
       log := log m ++ [Net (GetFeed p 10)] |}.
Proof.
  unfold spawn. rewrite start_fetchFeed.
  unfold fetch_pending, fetchFeed. destruct (p =? 1); reflexivity.
Qed.

(** When the pending fetch settles, either way, nothing is left pending
    and both flags are down. *)
Lemma settle_fetch (net : Network) (p : Z) (st : FeedState) (evs : list Event) :
  ∃ s' evs',
    settle net 0 {| state := st; inflight := [fetch_pending p]; log := evs |}
      = {| state := s'; inflight := []; log := evs' |} ∧
    loading s' = false ∧ loadingMore s' = false.
Proof.
  unfold settle, spawn, fetch_pending, fetchFeed.
  destruct (p =? 1); cbn;
    destruct (net FeedPage (GetFeed p 10)) as [d|e]; cbn;
    eexists _, _; (split; [reflexivity | done]).
Qed.

Lemma handleLoadMore_guard s :
  loadingMore s = true ∨ truthy (hasMore s) = false → handleLoadMore s = s.
Proof.
  unfold handleLoadMore. intros [-> | ->]; [done|]. by rewrite andb_false_r.
Qed.

Lemma handleLoadMore_advances s :
  loadingMore s = false → truthy (hasMore s) = true →
  handleLoadMore s = setPage (fun prev => to_double (prev + 1)) s.
Proof. unfold handleLoadMore. by intros -> ->. Qed.

Lemma setPage_same (p : Z) s : p = page s → setPage (fun _ => p) s = s.
Proof. intros ->. by destruct s. Qed.

(** A call of the handler in the mounted page: nothing happens when the
    page number stays, else the effect fetches the new page. *)
Lemma call_handleLoadMore_stays m :
  page (handleLoadMore (state m)) = page (state m) →
  call_handleLoadMore isAuthenticated m = m.
Proof.
  intros Hpage. unfold call_handleLoadMore. rewrite Hpage, Z.eqb_refl.
  destruct m as [st pending evs]. f_equal. simpl in *.
  unfold handleLoadMore in *.
  destruct (negb (loadingMore st) && truthy (hasMore st)); [|done].
  destruct st. simpl in *. unfold setPage. simpl. by rewrite Hpage.
Qed.

Lemma call_handleLoadMore_guard m :
  loadingMore (state m) = true ∨ truthy (hasMore (state m)) = false →
  call_handleLoadMore isAuthenticated m = m.
Proof.
  intros Hcase. apply call_handleLoadMore_stays.
  by rewrite (handleLoadMore_guard _ Hcase).
Qed.

Lemma call_handleLoadMore_fetches m :
  isAuthenticated = true →
  loadingMore (state m) = false → truthy (hasMore (state m)) = true →
  to_double (page (state m) + 1) ≠ page (state m) →
  call_handleLoadMore isAuthenticated m =
    spawn (fetchFeed (to_double (page (state m) + 1)))
      {| state := setPage (fun prev => to_double (prev + 1)) (state m);
         inflight := inflight m; log := log m |}.
Proof.
  intros Hauth Hlm Hmore Hne. unfold call_handleLoadMore.
  rewrite (handleLoadMore_advances _ Hlm Hmore). cbn [page setPage].
  rewrite (proj2 (Z.eqb_neq _ _) Hne). unfold effect. by rewrite Hauth.
Qed.

Lemma button_enabled_flags s :
  button_enabled isAuthenticated s = true →
  isAuthenticated = true ∧ loading s = false ∧ loadingMore s = false ∧
  truthy (hasMore s) = true.
Proof.
  unfold button_enabled, button_rendered.
  destruct isAuthenticated, (loading s), (loadingMore s), (truthy (hasMore s));
    simpl; rewrite ?andb_false_r; done.
Qed.

(** The invariant holds in every state the mounted page can be in. *)
Lemma reachable_one_fetch_flagged m :
  reachable isAuthenticated m → one_fetch_flagged m.
Proof.
  induction 1 as [c|m Hm IH|net i m Hm IH|f m Hm IH].
  - unfold mount, effect. destruct isAuthenticated; [|done].
    rewrite spawn_fetchFeed. simpl. split; [by exists 1|by left].
  - unfold loadMore.
    destruct (button_enabled isAuthenticated (state m)) eqn:Hbtn; [|done].
    apply button_enabled_flags in Hbtn as (Hauth & Hl & Hlm & Hmore).
    destruct (decide (to_double (page (state m) + 1) = page (state m))) as [Heq|Hne].
    { rewrite call_handleLoadMore_stays; [done|].
      by rewrite (handleLoadMore_advances _ Hlm Hmore). }
    rewrite (call_handleLoadMore_fetches _ Hauth Hlm Hmore Hne), spawn_fetchFeed.
    cbn [state inflight log].
    unfold one_fetch_flagged in IH |- *. cbn [state inflight log].
    destruct (inflight m) as [|susp [|susp' rest]]; [|exfalso|done].
    + simpl. split; [by eexists|].
      destruct (to_double (page (state m) + 1) =? 1); [by left|by right].
    + destruct IH as [_ [Hflag|Hflag]]; congruence.
  - unfold one_fetch_flagged in IH.
    destruct m as [st pending evs]. simpl in IH.
    destruct pending as [|susp [|susp' rest]]; [by destruct i| |done].
    destruct IH as [[p ->] Hflag].
    destruct i as [|i].
    + destruct (settle_fetch net p st evs) as (s' & evs' & -> & _). done.
    + unfold settle. simpl. split; [by exists p | exact Hflag].
  - unfold one_fetch_flagged, elsewhere in *. simpl.
    destruct (inflight m) as [|susp [|susp' rest]]; done.
Qed.

Lemma loadMore_stays m :
  one_fetch_flagged m →
  inflight m ≠ [] ∨ truthy (hasMore (state m)) = false →
  loadMore isAuthenticated m = m.
Proof.
  intros Hinv Hcase. unfold loadMore.
  destruct (button_enabled isAuthenticated (state m)) eqn:Hbtn; [exfalso|done].
  apply button_enabled_flags in Hbtn as (_ & Hl & Hlm & Hmore).
  destruct Hcase as [Hpending|Hnomore]; [|congruence].
  unfold one_fetch_flagged in Hinv.
  destruct (inflight m) as [|susp [|susp' rest]]; [done| |done].
  destruct Hinv as [_ [Hflag|Hflag]]; congruence.
Qed.

(** C7 (as amended). [handleLoadMore] is guarded by [loadingMore] and
    [hasMore] alone.  While [loadingMore] is up (a page after the first
    is being fetched) or [hasMore] is falsy, the handler returns the state
    as it is, and a call of it in the mounted page changes neither the
    page number nor the pending fetches nor the log of requests, however
    often it is repeated.  Through the Load More button, which is not
    rendered while the first page loads, the same holds in every state the
    page can reach whenever any fetch is pending or [hasMore] is falsy. *)
Theorem loadMore_is_noop_when_busy_or_exhausted :
  (∀ s (n : nat),
     loadingMore s = true ∨ truthy (hasMore s) = false →
     Nat.iter n handleLoadMore s = s) ∧
  (∀ m (n : nat),
     loadingMore (state m) = true ∨ truthy (hasMore (state m)) = false →
     Nat.iter n (call_handleLoadMore isAuthenticated) m = m) ∧
  (∀ m (n : nat),
     reachable isAuthenticated m →
     inflight m ≠ [] ∨ truthy (hasMore (state m)) = false →
     Nat.iter n (loadMore isAuthenticated) m = m).
Proof.
  split_and!.
  - intros s n Hcase. induction n as [|n IH]; [done|].
    simpl. rewrite IH. by apply handleLoadMore_guard.
  - intros m n Hcase. induction n as [|n IH]; [done|].
    simpl. rewrite IH. by apply call_handleLoadMore_guard.
  - intros m n Hreach Hcase. induction n as [|n IH]; [done|].
    simpl. rewrite IH. apply loadMore_stays; [|done].
    by apply reachable_one_fetch_flagged.
Qed.

End Pagination.

(** Two pages that overlap in one post: the feed lists three identifiers
    in fetch order, two requests went out, and further clicks do nothing. *)
Lemma feed_two_pages :
  PostContext.feedPosts (Feed.ctx (Feed.state feed_after_two_pages))
    = [Num 7; Num 8; Num 9] ∧
  Feed.page (Feed.state feed_after_two_pages) = 2 ∧
  Feed.hasMore (Feed.state feed_after_two_pages) = Bool false ∧
  Feed.log feed_after_two_pages = [Net (GetFeed 1 10); Net (GetFeed 2 10)] ∧
  Feed.log (Feed.loadMore true (Feed.loadMore true feed_after_two_pages))
    = [Net (GetFeed 1 10); Net (GetFeed 2 10)].
Proof. vm_compute. done. Qed.

(** While the first page is being fetched neither guard of the handler
    is up: a call of [handleLoadMore] then advances the page and a second
    fetch goes out next to the pending one. *)
Lemma handleLoadMore_runs_during_first_fetch :
  let m := feed_loading_first in
  let m' := Feed.call_handleLoadMore true m in
  Feed.inflight m = [fetch_pending 1] ∧
  Feed.loading (Feed.state m) = true ∧ Feed.loadingMore (Feed.state m) = false ∧
  Feed.page (Feed.state m) = 1 ∧
  Feed.page (Feed.state m') = 2 ∧
  Feed.inflight m' = [fetch_pending 1; fetch_pending 2] ∧
  Feed.log m' = [Net (GetFeed 1 10); Net (GetFeed 2 10)] ∧
  m' ≠ m.
Proof.
  cbv zeta. split_and!; try reflexivity.
  intros Heq. apply (f_equal (fun m => Feed.page (Feed.state m))) in Heq.
  vm_compute in Heq. discriminate.
Qed.

Lemma loadMore_is_noop_when_busy_or_exhausted_witness :
  let busy := Feed.setLoadingMore true (Feed.initial sample_store) in
  let fetching_more :=
    Feed.call_handleLoadMore true (Feed.settle net_two_pages 0 feed_loading_first) in
  (Feed.loadingMore busy = true ∧ Nat.iter 3 Feed.handleLoadMore busy = busy) ∧
  (Feed.loadingMore (Feed.state fetching_more) = true ∧
   Feed.inflight fetching_more = [fetch_pending 2] ∧
   Nat.iter 3 (Feed.call_handleLoadMore true) fetching_more = fetching_more) ∧
  (truthy (Feed.hasMore (Feed.state feed_exhausted)) = false ∧
   Nat.iter 3 (Feed.call_handleLoadMore true) feed_exhausted = feed_exhausted) ∧
  (Feed.reachable true feed_loading_first ∧
   Feed.inflight feed_loading_first ≠ [] ∧
   Nat.iter 3 (Feed.loadMore true) feed_loading_first = feed_loading_first) ∧
  (Feed.reachable true feed_exhausted ∧
   Feed.page (Feed.state (Nat.iter 3 (Feed.loadMore true) feed_exhausted)) = 1 ∧
   Nat.iter 3 (Feed.loadMore true) feed_exhausted = feed_exhausted).
Proof.
  cbv zeta.
  destruct (loadMore_is_noop_when_busy_or_exhausted true) as (Hhandler & Hcall & Hpage).
  assert (Feed.reachable true feed_loading_first) as Hr1 by constructor.
  assert (Feed.reachable true feed_exhausted) as Hr2 by (by constructor).
  assert (Feed.inflight feed_loading_first ≠ []) as Hbusy by discriminate.
  assert (truthy (Feed.hasMore (Feed.state feed_exhausted)) = false) as Hdone
    by reflexivity.
  split_and!.
  - reflexivity.
  - apply Hhandler. by left.
  - reflexivity.
  - reflexivity.
  - apply Hcall. by left.
  - exact Hdone.
  - apply Hcall. by right.
  - exact Hr1.
  - exact Hbusy.
  - apply Hpage; [exact Hr1 | by left].
  - exact Hr2.
  - rewrite Hpage; [reflexivity | exact Hr2 | by right].
  - apply Hpage; [exact Hr2 | by right].
Defined.

(** ** The session *)

Section Session.
Import AuthContext.
Variable jwtDecode : string → option JwtPayload.
Variable JSON_parse : string → option any.
Variable JSON_stringify : any → string.
Implicit Types (s : Session) (net : Network).

Lemma present_nonempty (v : string) : v ≠ "" → present (Some v) = true.
Proof. unfold present. simpl. by destruct v. Qed.

Lemma exp_after_false (decoded : JwtPayload) (e currentTime : Q) :
  exp decoded = Some e → (e <= currentTime)%Q → exp_after decoded currentTime = false.
Proof.
  intros He Hle. unfold exp_after. rewrite He.
  apply negb_false_iff. by apply Qle_bool_iff.
Qed.

(** C8. At load time, a stored session whose token decodes to an expiry
    that is not strictly after the current time is not restored: both
    stored entries are removed, [token] and [user] stay [null], and the
    session starts unauthenticated (and no longer loading). *)
Theorem expired_session_is_not_restored
    (now : Z) (storedToken storedUser : string) (decoded : JwtPayload) (e : Q) :
  storedToken ≠ "" → storedUser ≠ "" →
  jwtDecode storedToken = Some decoded →
  exp decoded = Some e →
  (e <= inject_Z now / 1000)%Q →
  let s := restore jwtDecode JSON_parse now (initial (Some storedToken) (Some storedUser)) in
  isAuthenticated s = false ∧
  token s = Null ∧ user s = Prim Null ∧
  stored_token s = None ∧ stored_user s = None ∧
  loading s = false.
Proof.
  intros Ht Hu Hdec He Hle. unfold restore, initial. cbn [stored_token stored_user].
  rewrite (present_nonempty _ Ht), (present_nonempty _ Hu).
  change (default "" (Some storedToken)) with storedToken.
  cbn [andb]. rewrite Hdec, (exp_after_false _ _ _ He Hle). done.
Qed.

(** A session is restored as authenticated only from a token whose
    expiry lies strictly after the current time. *)
Lemma restored_session_is_unexpired (now : Z) (storedToken storedUser : option string) :
  isAuthenticated (restore jwtDecode JSON_parse now (initial storedToken storedUser)) = true →
  ∃ t decoded e,
    storedToken = Some t ∧ jwtDecode t = Some decoded ∧ exp decoded = Some e ∧
    (inject_Z now / 1000 < e)%Q.
Proof.
  unfold restore. simpl.
  destruct storedToken as [t|]; [|done].
  destruct (present (Some t) && present storedUser); [|done]. simpl.
  destruct (jwtDecode t) as [decoded|] eqn:Hdec; [|done].
  unfold exp_after. destruct (exp decoded) as [e|] eqn:He; [|done].
  destruct (Qle_bool e (inject_Z now / 1000)) eqn:Hle; [done|]. intros _.
  exists t, decoded, e. split_and!; try done.
  apply Qnot_le_lt. intros Hle'. apply Qle_bool_iff in Hle'. congruence.
Qed.

Lemma signup_success net s username email password (data : obj) :
  net obj (Signup username email password) = Resolved data →
  run net (signup username email password) s =
    ({| user := Prim Null; token := Null; loading := loading s;
        stored_token := None; stored_user := None |},
     [Net (Signup username email password)],
     Resolved {| success := true; error := Undefined;
                 message := Js.or (get "message" data)
                              (Str "Account created successfully") |}).
Proof. intros Hnet. unfold signup, api. prog_simpl. by rewrite Hnet. Qed.

(** Nothing but a login sets the [token] cell. *)
Lemma perform_keeps_no_token net (o : Op) s :
  is_login o = false → token s = Null →
  token (perform JSON_stringify net o s) = Null.
Proof.
  intros Hop Htok. destruct o as [u p|u e p| |d]; simpl in *; [done| |done|done].
  unfold signup, api. prog_simpl.
  destruct (net obj (Signup u e p)) as [data|error]; [done|].
  by destruct (unauthorized error).
Qed.

Lemma perform_all_keeps_no_token net (ops : list Op) : ∀ s,
  forallb (fun o => negb (is_login o)) ops = true → token s = Null →
  token (foldl (fun s o => perform JSON_stringify net o s) s ops) = Null.
Proof.
  induction ops as [|o ops IH]; intros s Hops Htok; simpl in *; [done|].
  apply andb_true_iff in Hops as [Ho Hops].
  apply IH; [done|]. apply perform_keeps_no_token; [|done].
  by apply negb_true_iff.
Qed.

(** C9. A signup that succeeds leaves no session: whatever was there
    before, afterwards no token and no user are stored or held, the session
    is not authenticated, and it stays so through anything but a login
    (further signups, logout, profile updates). *)
Theorem signup_does_not_authenticate
    net s username email password (data : obj) :
  net obj (Signup username email password) = Resolved data →
  ∃ s' outcome,
    run net (signup username email password) s
      = (s', [Net (Signup username email password)], Resolved outcome) ∧
    success outcome = true ∧
    token s' = Null ∧ user s' = Prim Null ∧
    stored_token s' = None ∧ stored_user s' = None ∧
    isAuthenticated s' = false ∧
    ∀ net' (ops : list Op),
      forallb (fun o => negb (is_login o)) ops = true →
      isAuthenticated (foldl (fun s o => perform JSON_stringify net' o s) s' ops) = false.
Proof.
  intros Hnet. eexists _, _. split; [by apply signup_success|].
  split_and!; try done.
  intros net' ops Hops. unfold isAuthenticated.
  by rewrite perform_all_keeps_no_token.
Qed.

End Session.

Section SessionRuns.
Import AuthContext.

(** Loaded at 1 800 000 000 s, a token that expired at 1 700 000 000 s. *)
Lemma expired_session_is_not_restored_witness :
  let s := restore sample_jwtDecode sample_JSON_parse 1800000000000
             (initial (Some "expired.jwt") (Some "ann.json")) in
  (inject_Z 1700000000 <= inject_Z 1800000000000 / 1000)%Q ∧
  isAuthenticated s = false ∧
  token s = Null ∧ user s = Prim Null ∧
  stored_token s = None ∧ stored_user s = None ∧
  loading s = false.
Proof.
  cbv zeta.
  assert (inject_Z 1700000000 <= inject_Z 1800000000000 / 1000)%Q as Hle
    by (vm_compute; discriminate).
  split; [exact Hle|].
  apply (expired_session_is_not_restored sample_jwtDecode sample_JSON_parse
           1800000000000 "expired.jwt" "ann.json"
           {| exp := Some (inject_Z 1700000000) |} (inject_Z 1700000000));
    [discriminate | discriminate | reflexivity | reflexivity | exact Hle].
Defined.

(** Loaded at the same time, a token that expires later is restored. *)
Lemma fresh_session_is_restored :
  let s := restore sample_jwtDecode sample_JSON_parse 1800000000000
             (initial (Some "fresh.jwt") (Some "ann.json")) in
  isAuthenticated s = true ∧ token s = Str "fresh.jwt" ∧
  user s = Object sample_user ∧ stored_token s = Some "fresh.jwt".
Proof. vm_compute. done. Qed.

Lemma signup_does_not_authenticate_witness :
  isAuthenticated logged_in = true ∧
  ∃ s' outcome,
    run (net_ok ∅) (signup "bob" "bob@example.org" "secret") logged_in
      = (s', [Net (Signup "bob" "bob@example.org" "secret")], Resolved outcome) ∧
    success outcome = true ∧
    token s' = Null ∧ user s' = Prim Null ∧
    stored_token s' = None ∧ stored_user s' = None ∧
    isAuthenticated s' = false ∧
    isAuthenticated
      (foldl (fun s o => perform sample_JSON_stringify (net_ok ∅) o s) s'
         [DoUpdateUser (Object sample_user); DoSignup "eve" "eve@example.org" "pw"])
      = false.
Proof.
  split; [reflexivity|].
  destruct (signup_does_not_authenticate sample_JSON_stringify (net_ok ∅) logged_in
              "bob" "bob@example.org" "secret" ∅ eq_refl)
    as (s' & outcome & Hrun & Hok & Htok & Huser & Hst & Hsu & Hauth & Hstay).
  exists s', outcome. split_and!; try assumption.
  apply Hstay. reflexivity.
Defined.

(** A login is what creates the session. *)
Lemma login_authenticates :
  let net : Network := fun R c =>
    match c in Call R return Settled R with
    | Login _ _ => Resolved {| data_token := Str "fresh.jwt"; data_user := Some sample_user |}
    | c' => net_ok ∅ _ c'
    end in
  isAuthenticated
    (run net (login sample_JSON_stringify "ann" "secret") (initial None None)).1.1 = true.
Proof. vm_compute. reflexivity. Qed.

End SessionRuns.

(** * Further properties of the code *)

(** The sample stores, looked up once. *)
Lemma sample_store_holds_7 :
  PostContext.posts sample_store !! to_key (Num 7) = Some sample_post.
Proof. vm_compute. reflexivity. Qed.

Lemma sample_store_lacks_8 : PostContext.posts sample_store !! to_key (Num 8) = None.
Proof. vm_compute. reflexivity. Qed.

Lemma sample_store_lacks_9 : PostContext.posts sample_store !! to_key (Num 9) = None.
Proof. vm_compute. reflexivity. Qed.

Lemma inconsistent_store_holds_7 :
  PostContext.posts inconsistent_store !! to_key (Num 7) = Some inconsistent_post.
Proof. vm_compute. reflexivity. Qed.


(** ** The entity cache and the feed list *)

Section CacheAndFeed.
Import PostContext.
Implicit Types (s : Store) (post : obj) (postId : val).

(** [setPost] then [getPost]: the post is found under its id, also by an
    id that only prints the same (the number 7 and the string "7"); it
    replaces what was cached there wholesale, and no other entry and
    neither list changes. *)
Theorem setPost_then_getPost post s postId :
  to_key postId = key_of post →
  getPost (posts (setPost post s)) postId = Some (Entity post) ∧
  (∀ k, k ≠ key_of post → posts (setPost post s) !! k = posts s !! k) ∧
  feedPosts (setPost post s) = feedPosts s ∧
  userPosts (setPost post s) = userPosts s.
Proof.
  intros Hk. unfold getPost, key_of in *. simpl. rewrite Hk. split_and!.
  - apply index_own, lookup_insert_eq.
  - intros k Hne. by rewrite lookup_insert_ne.
  - done.
  - done.
Qed.

Lemma setPost_then_getPost_witness :
  to_key (Str "7") = key_of sample_post ∧
  getPost (posts (setPost sample_post inconsistent_store)) (Str "7")
    = Some (Entity sample_post).
Proof.
  assert (to_key (Str "7") = key_of sample_post) as Hk by (vm_compute; reflexivity).
  split; [exact Hk|].
  apply (setPost_then_getPost sample_post inconsistent_store (Str "7") Hk).
Defined.

(** Without the id [__proto__] the loop stores every post of the batch. *)
Lemma assign_plain (newPosts : list obj) : ∀ (prev : gmap string obj) (proto : option obj),
  Forall (fun post => key_of post ≠ "__proto__") newPosts →
  foldl assign (prev, proto) newPosts =
    (foldl (fun updated post => <[key_of post := post]> updated) prev newPosts, proto).
Proof.
  induction newPosts as [|post rest IH]; intros prev proto Hids; [done|].
  apply Forall_cons in Hids as [Hid Hids]. simpl.
  unfold assign at 2. cbn [fst snd]. fold (key_of post).
  rewrite (bool_decide_eq_false_2 _ Hid). cbn [andb]. by apply IH.
Qed.

Lemma batch_lookup (newPosts : list obj) : ∀ (prev : gmap string obj) (k : string),
  foldl (fun updated post => <[key_of post := post]> updated) prev newPosts !! k =
    match list_find (fun post => key_of post = k) (reverse newPosts) with
    | Some (_, post) => Some post
    | None => prev !! k
    end.
Proof.
  induction newPosts as [|post rest IH] using rev_ind; intros prev k; [done|].
  rewrite foldl_app, reverse_app. simpl.
  destruct (decide (key_of post = k)) as [<-|Hne].
  - apply lookup_insert_eq.
  - rewrite lookup_insert_ne by done. rewrite IH.
    by destruct (list_find _ (reverse rest)) as [[i q]|].
Qed.

(** [setPostsBatch], for a batch in which no post has the id [__proto__]:
    an entity whose id is not in the batch is kept as it is; a post of the
    batch is found under its id unless a later post of the batch carries
    the same id, in which case the later one wins. *)
Theorem setPostsBatch_lookup (newPosts : list obj) s :
  Forall (fun post => key_of post ≠ "__proto__") newPosts →
  (∀ k, (∀ post, post ∈ newPosts → key_of post ≠ k) →
     posts (setPostsBatch newPosts s) !! k = posts s !! k) ∧
  (∀ before post after,
     newPosts = before ++ post :: after →
     (∀ later, later ∈ after → key_of later ≠ key_of post) →
     posts (setPostsBatch newPosts s) !! key_of post = Some post) ∧
  feedPosts (setPostsBatch newPosts s) = feedPosts s ∧
  userPosts (setPostsBatch newPosts s) = userPosts s.
Proof.
  intros Hids. split_and!; try done.
  - intros k Hnone. simpl. rewrite (assign_plain _ _ _ Hids). cbn [fst].
    rewrite batch_lookup.
    destruct (list_find _ _) as [[i q]|] eqn:Hfind; [|done].
    apply list_find_Some in Hfind as (Hq & Hkey & _).
    exfalso. apply (Hnone q); [|done].
    apply elem_of_reverse. by eapply list_elem_of_lookup_2.
  - intros before post after -> Hlater. simpl. rewrite (assign_plain _ _ _ Hids).
    cbn [fst]. rewrite batch_lookup.
    rewrite reverse_app, reverse_cons, <- (assoc_L (++)). simpl.
    destruct (list_find _ _) as [[i q]|] eqn:Hfind.
    + apply list_find_Some in Hfind as (Hq & Hkey & Hfirst).
      destruct (decide (i < length (reverse after))%nat) as [Hlt|Hge].
      * rewrite lookup_app_l in Hq by done.
        exfalso. apply (Hlater q); [|done].
        apply elem_of_reverse. by eapply list_elem_of_lookup_2.
      * destruct (decide (i = length (reverse after))) as [->|Hne].
        -- rewrite list_lookup_middle in Hq by done. by injection Hq as ->.
        -- exfalso. apply (Hfirst (length (reverse after)) post); [|lia|done].
           by apply list_lookup_middle.
    + apply list_find_None in Hfind. rewrite Forall_app, Forall_cons in Hfind.
      by destruct Hfind as (_ & Hpost & _).
Qed.

Lemma setPostsBatch_lookup_witness :
  let newer := <["like_count" := Num 9]> sample_post in
  let s := setPostsBatch [sample_post; post_numbered 8; newer] inconsistent_store in
  Forall (fun post => key_of post ≠ "__proto__") [sample_post; post_numbered 8; newer] ∧
  key_of newer = key_of sample_post ∧
  posts s !! key_of (post_numbered 8) = Some (post_numbered 8) ∧
  posts s !! key_of newer = Some newer ∧
  posts s !! "12" = posts inconsistent_store !! "12".
Proof.
  cbv zeta.
  assert (Forall (fun post => key_of post ≠ "__proto__")
            [sample_post; post_numbered 8; <["like_count" := Num 9]> sample_post])
    as Hids by (repeat constructor; vm_compute; discriminate).
  pose proof (setPostsBatch_lookup
                [sample_post; post_numbered 8; <["like_count" := Num 9]> sample_post]
                inconsistent_store Hids) as (Hkeep & Hfound & _).
  split_and!.
  - exact Hids.
  - vm_compute. reflexivity.
  - apply (Hfound [sample_post] (post_numbered 8) [<["like_count" := Num 9]> sample_post]);
      [reflexivity|].
    intros later ->%list_elem_of_singleton. vm_compute. discriminate.
  - apply (Hfound [sample_post; post_numbered 8] (<["like_count" := Num 9]> sample_post) []);
      [reflexivity|].
    intros later Hin. by apply elem_of_nil in Hin.
  - apply Hkeep. intros post Hin.
    repeat (apply elem_of_cons in Hin as [->|Hin]; [vm_compute; discriminate|]).
    by apply elem_of_nil in Hin.
Defined.

(** The id [__proto__] is the one a batch does not store: on a cache
    without such an entry the assignment runs the setter of
    [Object.prototype], while [setPost], which writes a computed key,
    stores the post. *)
Lemma setPostsBatch_skips_proto post s :
  key_of post = "__proto__" → posts s !! "__proto__" = None →
  posts (setPostsBatch [post] s) = posts s ∧
  posts (setPost post s) !! "__proto__" = Some post.
Proof.
  intros Hid Hk. split.
  - simpl. unfold assign. cbn [fst snd]. fold (key_of post). rewrite Hid.
    rewrite (bool_decide_eq_true_2 _ Hk). done.
  - simpl. fold (key_of post). rewrite Hid. apply lookup_insert_eq.
Qed.

Lemma fold_add_length (l : list val) : ∀ acc,
  (length (foldl set_add acc l) ≤ length acc + length l)%nat.
Proof.
  induction l as [|x l IH]; intros acc; simpl; [lia|].
  etrans; [apply IH|]. unfold set_add. case_decide; [lia|].
  rewrite length_app. simpl. lia.
Qed.

(** [addToFeed] is idempotent, never makes the feed longer than the old
    feed plus the page, and never shorter than the page's distinct
    newcomers require: every id of the page is in the feed afterwards. *)
Theorem addToFeed_idempotent (ids : list val) s :
  addToFeed ids (addToFeed ids s) = addToFeed ids s ∧
  (length (feedPosts (addToFeed ids s)) ≤ length (feedPosts s) + length ids)%nat ∧
  Forall (fun id => id ∈ feedPosts (addToFeed ids s)) ids.
Proof.
  split_and!.
  - apply store_eq; try done.
    rewrite !addToFeed_feed. rewrite <- (fold_add_new_Set (new_Set _)).
    rewrite (new_Set_id (new_Set _)) by apply new_Set_NoDup.
    apply fold_add_present. intros x Hx. apply new_Set_elem, elem_of_app. by right.
  - rewrite addToFeed_feed. unfold new_Set.
    etrans; [apply fold_add_length|]. rewrite length_app. simpl. lia.
  - apply Forall_forall. intros x Hx.
    rewrite addToFeed_feed. apply new_Set_elem, elem_of_app. by right.
Qed.

(** [addNewPost] caches the post and puts its id at the head of the feed,
    and pages appended afterwards leave it there, once; if the id was
    already in the feed it is listed twice until the next append. *)
Theorem addNewPost_heads_the_feed post s (ids : list val) :
  getPost (posts (addNewPost post s)) (get "id" post) = Some (Entity post) ∧
  feedPosts (addNewPost post s) = get "id" post :: feedPosts s ∧
  (∃ rest,
     feedPosts (addToFeed ids (addNewPost post s)) = get "id" post :: rest ∧
     get "id" post ∉ rest) ∧
  (get "id" post ∈ feedPosts s → ¬ NoDup (feedPosts (addNewPost post s))).
Proof.
  split_and!.
  - unfold getPost. simpl. apply index_own, lookup_insert_eq.
  - done.
  - rewrite addToFeed_feed.
    pose proof (new_Set_NoDup (feedPosts (addNewPost post s) ++ ids)) as Hnd.
    assert (new_Set (feedPosts (addNewPost post s) ++ ids)
            = foldl set_add [get "id" post] (feedPosts s ++ ids)) as Hhead.
    { unfold new_Set. change (feedPosts (addNewPost post s)) with (get "id" post :: feedPosts s).
      rewrite <- app_comm_cons. cbn [foldl]. done. }
    rewrite Hhead in Hnd |- *.
    destruct (fold_add_prefix (feedPosts s ++ ids) [get "id" post]) as [rest Hrest].
    rewrite Hrest in Hnd |- *. exists rest. split; [done|].
    by apply NoDup_cons in Hnd as [Hnotin _].
  - intros Hin Hnd. simpl in Hnd. by apply NoDup_cons in Hnd as [Hnotin _].
Qed.

Lemma addNewPost_heads_the_feed_witness :
  get "id" sample_post ∈ feedPosts sample_store ∧
  ¬ NoDup (feedPosts (addNewPost sample_post sample_store)) ∧
  feedPosts (addToFeed [Num 8; Num 9] (addNewPost sample_post sample_store))
    = [Num 7; Num 8; Num 9].
Proof.
  assert (get "id" sample_post ∈ feedPosts sample_store) as Hin by (by left).
  split; [exact Hin|]. split.
  - by apply (addNewPost_heads_the_feed sample_post sample_store []).
  - reflexivity.
Defined.

End CacheAndFeed.

(** ** The optimistic actions, beyond [toggleLike] on a cached post *)

Section MoreOptimistic.
Import PostContext.
Variable StringToNumber : string → val.
Implicit Types (net : Network) (s : Store) (post : obj) (postId : val) (error : ApiError).

Lemma patch1_lookup (name : string) (a : val) (f : string) :
  ({[ name := a ]} : obj) !! f = if decide (f = name) then Some a else None.
Proof.
  case_decide; subst; [apply lookup_singleton_eq | by apply lookup_singleton_ne].
Qed.

(** Patching fields with the values they hold changes nothing. *)
Lemma updatePost_same postId (a b : val) s post :
  posts s !! to_key postId = Some post →
  post !! "is_liked" = Some a → post !! "like_count" = Some b →
  updatePost postId {[ "is_liked" := a; "like_count" := b ]} s = s.
Proof.
  intros Hk Ha Hb. apply store_eq; try done.
  rewrite (updatePost_present _ _ _ _ Hk). apply insert_id. rewrite Hk. f_equal.
  apply map_eq. intros f. rewrite spread_lookup, patch2_lookup.
  repeat case_decide; by subst.
Qed.

Lemma patched_like_state post (a b : bool) (n m : Z) :
  like_state (spread post {[ "is_liked" := Bool a; "like_count" := Num n ]}) a n ∧
  ∀ f, f ≠ "is_liked" → f ≠ "like_count" →
    spread post {[ "is_liked" := Bool a; "like_count" := Num n ]} !! f = post !! f.
Proof.
  unfold like_state. split; [split|]; intros; rewrite spread_lookup, patch2_lookup;
    repeat case_decide; done.
Qed.

Lemma likePost_cached net s postId post :
  posts s !! to_key postId = Some post →
  likePost_now StringToNumber net postId s =
    match net unit (Like postId) with
    | Resolved _ =>
        (updatePost postId
           {[ "is_liked" := Bool true;
              "like_count" := Js.add StringToNumber (oldLikeCount post)
                                (if truthy (wasLiked post) then Num 0 else Num 1) ]} s,
         [Net (Like postId)], Resolved tt)
    | Rejected error =>
        (updatePost postId (snapshot post)
           (updatePost postId
              {[ "is_liked" := Bool true;
                 "like_count" := Js.add StringToNumber (oldLikeCount post)
                                   (if truthy (wasLiked post) then Num 0 else Num 1) ]} s),
         [Net (Like postId);
          ToastError (Js.or (response_data_error error) (Str "Failed to like post"))],
         Rejected error)
    end.
Proof.
  intros Hk. unfold likePost_now, likePost. rewrite (index_own _ _ _ Hk). prog_simpl.
  by destruct (net unit (Like postId)) as [[]|error].
Qed.

Lemma unlikePost_cached net s postId post :
  posts s !! to_key postId = Some post →
  unlikePost_now StringToNumber net postId s =
    match net unit (Unlike postId) with
    | Resolved _ =>
        (updatePost postId
           {[ "is_liked" := Bool false;
              "like_count" :=
                Js.max StringToNumber (Num 0)
                  (Js.sub StringToNumber (oldLikeCount post)
                     (if truthy (wasLiked post) then Num 1 else Num 0)) ]} s,
         [Net (Unlike postId)], Resolved tt)
    | Rejected error =>
        (updatePost postId (snapshot post)
           (updatePost postId
              {[ "is_liked" := Bool false;
                 "like_count" :=
                   Js.max StringToNumber (Num 0)
                     (Js.sub StringToNumber (oldLikeCount post)
                        (if truthy (wasLiked post) then Num 1 else Num 0)) ]} s),
         [Net (Unlike postId);
          ToastError (Js.or (response_data_error error) (Str "Failed to unlike post"))],
         Rejected error)
    end.
Proof.
  intros Hk. unfold unlikePost_now, unlikePost. rewrite (index_own _ _ _ Hk). prog_simpl.
  by destruct (net unit (Unlike postId)) as [[]|error].
Qed.

Lemma typed_snapshot post (S : bool) (C : Z) :
  like_state post S C → wasLiked post = Bool S ∧ oldLikeCount post = Num C.
Proof.
  intros [Hb Hc]. unfold wasLiked, oldLikeCount, get. rewrite Hb, Hc. simpl.
  by rewrite or_bool_false, or_num_zero.
Qed.

(** [likePost] that succeeds, on a cached post whose [is_liked] is a
    boolean and whose [like_count] is a safe integer, marks the post liked
    and counts one more like only if it was not liked yet; every other
    field stays.  Liking again right away sends the request again but
    changes nothing in the store. *)
Theorem likePost_is_idempotent net s postId post (S : bool) (C : Z) :
  posts s !! to_key postId = Some post →
  like_state post S C →
  isSafeInteger C →
  net unit (Like postId) = Resolved tt →
  ∃ s1 post1,
    likePost_now StringToNumber net postId s = (s1, [Net (Like postId)], Resolved tt) ∧
    posts s1 !! to_key postId = Some post1 ∧
    like_state post1 true (if S then C else C + 1) ∧
    (∀ f, f ≠ "is_liked" → f ≠ "like_count" → post1 !! f = post !! f) ∧
    likePost_now StringToNumber net postId s1 = (s1, [Net (Like postId)], Resolved tt).
Proof.
  intros Hk Hst Hsafe Hlike.
  destruct (typed_snapshot _ _ _ Hst) as [Hwas Hold].
  assert (Js.add StringToNumber (oldLikeCount post)
            (if truthy (wasLiked post) then Num 0 else Num 1)
          = Num (if S then C else C + 1)) as Hcount.
  { rewrite Hwas, Hold. destruct S; unfold Js.add, num_op; simpl; f_equal.
    - rewrite Z.add_0_r. by apply to_double_safe.
    - by apply to_double_succ. }
  rewrite (likePost_cached _ _ _ _ Hk), Hlike, Hcount.
  destruct (patched_like_state post true true (if S then C else C + 1) 0) as [Hst1 Hrest].
  eexists _, _. split; [reflexivity|].
  assert (posts (updatePost postId
                   {[ "is_liked" := Bool true; "like_count" := Num (if S then C else C + 1) ]} s)
            !! to_key postId
          = Some (spread post
                    {[ "is_liked" := Bool true; "like_count" := Num (if S then C else C + 1) ]}))
    as Hk1.
  { rewrite (updatePost_present _ _ _ _ Hk). apply lookup_insert_eq. }
  split; [exact Hk1|]. split; [exact Hst1|]. split; [exact Hrest|].
  rewrite (likePost_cached _ _ _ _ Hk1), Hlike.
  destruct (typed_snapshot _ _ _ Hst1) as [-> ->]. simpl.
  unfold num_op. cbn [to_number]. rewrite Z.add_0_r. destruct Hst1 as [Hb1 Hc1].
  rewrite to_double_exact.
  - by rewrite (updatePost_same _ _ _ _ _ Hk1 Hb1 Hc1).
  - unfold isSafeInteger, MAX_SAFE_INTEGER in Hsafe. destruct S; lia.
Qed.

(** [unlikePost] that succeeds, on a cached post whose [is_liked] is a
    boolean and whose [like_count] is a safe integer, marks the post not
    liked and never leaves a negative count: the count drops by one only
    if the post was liked and is clamped at zero.  On a post that was not
    liked and counts no less than zero it changes nothing. *)
Theorem unlikePost_clamps_at_zero net s postId post (S : bool) (C : Z) :
  posts s !! to_key postId = Some post →
  like_state post S C →
  isSafeInteger C →
  net unit (Unlike postId) = Resolved tt →
  ∃ s1 post1,
    unlikePost_now StringToNumber net postId s = (s1, [Net (Unlike postId)], Resolved tt) ∧
    posts s1 !! to_key postId = Some post1 ∧
    like_state post1 false (Z.max 0 (C - (if S then 1 else 0))) ∧
    0 ≤ Z.max 0 (C - (if S then 1 else 0)) ∧
    (∀ f, f ≠ "is_liked" → f ≠ "like_count" → post1 !! f = post !! f) ∧
    (S = false → 0 ≤ C → s1 = s).
Proof.
  intros Hk Hst Hsafe Hunlike.
  destruct (typed_snapshot _ _ _ Hst) as [Hwas Hold].
  assert (Js.max StringToNumber (Num 0)
            (Js.sub StringToNumber (oldLikeCount post)
               (if truthy (wasLiked post) then Num 1 else Num 0))
          = Num (Z.max 0 (C - (if S then 1 else 0)))) as Hcount.
  { rewrite Hwas, Hold. destruct S; unfold Js.max, Js.sub, num_op; simpl.
    - by rewrite (to_double_pred _ Hsafe).
    - by rewrite Z.sub_0_r, (to_double_safe _ Hsafe). }
  rewrite (unlikePost_cached _ _ _ _ Hk), Hunlike, Hcount.
  destruct (patched_like_state post false false (Z.max 0 (C - (if S then 1 else 0))) 0)
    as [Hst1 Hrest].
  eexists _, _. split; [reflexivity|]. split_and!.
  - rewrite (updatePost_present _ _ _ _ Hk). apply lookup_insert_eq.
  - exact Hst1.
  - lia.
  - exact Hrest.
  - intros -> HC. destruct Hst as [Hb Hc].
    rewrite Z.sub_0_r, Z.max_r by lia. by apply (updatePost_same _ _ _ _ post).
Qed.

Lemma rollback_any_patch post (a b : val) :
  spread (spread post {[ "is_liked" := a; "like_count" := b ]}) (snapshot post)
    = spread post (snapshot post).
Proof.
  apply map_eq. intros f.
  rewrite !spread_lookup, snapshot_lookup, patch2_lookup.
  repeat case_decide; done.
Qed.

Lemma rollback_restores_store postId (a b : val) s post (S : bool) (C : Z) :
  posts s !! to_key postId = Some post → like_state post S C →
  updatePost postId (snapshot post)
    (updatePost postId {[ "is_liked" := a; "like_count" := b ]} s) = s.
Proof.
  intros Hk [Hb Hc]. apply store_eq; try done.
  rewrite (updatePost_twice _ _ _ _ _ Hk), rollback_any_patch.
  rewrite (snapshot_typed _ _ _ Hb Hc). by apply insert_id.
Qed.

(** [likePost] and [unlikePost] whose request is rejected, on a cached
    post whose [is_liked] is a boolean and whose [like_count] is a number,
    put the store back exactly as it was, show the server's message (or
    their own fallback when there is none) and reject with the same
    error. *)
Theorem like_and_unlike_roll_back net s postId post (S : bool) (C : Z) error :
  posts s !! to_key postId = Some post →
  like_state post S C →
  net unit (Like postId) = Rejected error →
  net unit (Unlike postId) = Rejected error →
  likePost_now StringToNumber net postId s =
    (s,
     [Net (Like postId);
      ToastError (Js.or (response_data_error error) (Str "Failed to like post"))],
     Rejected error) ∧
  unlikePost_now StringToNumber net postId s =
    (s,
     [Net (Unlike postId);
      ToastError (Js.or (response_data_error error) (Str "Failed to unlike post"))],
     Rejected error).
Proof.
  intros Hk Hst Hlike Hunlike.
  rewrite (likePost_cached _ _ _ _ Hk), (unlikePost_cached _ _ _ _ Hk), Hlike, Hunlike.
  by rewrite !(rollback_restores_store _ _ _ _ _ _ _ Hk Hst).
Qed.

Lemma addComment_cached net s postId text post :
  posts s !! to_key postId = Some post →
  addComment_now StringToNumber net postId text s =
    let oldCommentCount := Js.or (get "comment_count" post) (Num 0) in
    let counted :=
      updatePost postId
        {[ "comment_count" := Js.add StringToNumber oldCommentCount (Num 1) ]} s in
    match net obj (AddComment postId text) with
    | Resolved comment =>
        (counted,
         [Net (AddComment postId text); ToastSuccess (Str "Comment added")],
         Resolved (Some comment))
    | Rejected error =>
        (updatePost postId {[ "comment_count" := oldCommentCount ]} counted,
         [Net (AddComment postId text);
          ToastError (Js.or (response_data_error error) (Str "Failed to add comment"))],
         Rejected error)
    end.
Proof.
  intros Hk. unfold addComment_now, addComment. rewrite (index_own _ _ _ Hk). prog_simpl.
  by destruct (net obj (AddComment postId text)) as [comment|error].
Qed.

(** [addComment] on a cached post whose [comment_count] is a safe
    integer: when the request succeeds the count is one higher, every other
    field and post is as before, and the promise resolves with the server's
    comment; when it is rejected the store is exactly as before and the
    promise rejects with that error. *)
Theorem addComment_counts_or_rolls_back net s postId text post (n : Z) :
  posts s !! to_key postId = Some post →
  post !! "comment_count" = Some (Num n) →
  isSafeInteger n →
  (∀ comment, net obj (AddComment postId text) = Resolved comment →
     ∃ s1 post1,
       addComment_now StringToNumber net postId text s =
         (s1, [Net (AddComment postId text); ToastSuccess (Str "Comment added")],
          Resolved (Some comment)) ∧
       posts s1 !! to_key postId = Some post1 ∧
       post1 !! "comment_count" = Some (Num (n + 1)) ∧
       (∀ f, f ≠ "comment_count" → post1 !! f = post !! f) ∧
       (∀ k, k ≠ to_key postId → posts s1 !! k = posts s !! k)) ∧
  (∀ error, net obj (AddComment postId text) = Rejected error →
     addComment_now StringToNumber net postId text s =
       (s,
        [Net (AddComment postId text);
         ToastError (Js.or (response_data_error error) (Str "Failed to add comment"))],
        Rejected error)).
Proof.
  intros Hk Hn Hsafe.
  assert (Js.or (get "comment_count" post) (Num 0) = Num n) as Hold.
  { unfold get. rewrite Hn. apply or_num_zero. }
  rewrite (addComment_cached _ _ _ _ _ Hk). cbv zeta. rewrite Hold.
  assert (Js.add StringToNumber (Num n) (Num 1) = Num (n + 1)) as ->.
  { unfold Js.add, num_op. simpl. by rewrite (to_double_succ _ Hsafe). }
  split.
  - intros comment ->. eexists _, _. split; [reflexivity|].
    rewrite (updatePost_present _ _ _ _ Hk). split_and!.
    + apply lookup_insert_eq.
    + rewrite spread_lookup, patch1_lookup. by rewrite decide_True.
    + intros f Hf. rewrite spread_lookup, patch1_lookup. by rewrite decide_False.
    + intros k Hne. by rewrite lookup_insert_ne.
  - intros error ->. f_equal. f_equal. apply store_eq; try done.
    rewrite (updatePost_twice _ _ _ _ _ Hk). apply insert_id. rewrite Hk. f_equal.
    apply map_eq. intros f. rewrite !spread_lookup, !patch1_lookup.
    case_decide; by subst.
Qed.

(** [toggleLike] on a post that is not cached, under an id that names no
    member of [Object.prototype], and that cannot be fetched: one request
    for the post, the error toast, rejection with the fetch's error; the
    store is untouched and no like or unlike is sent. *)
Theorem toggleLike_fetch_failure net (cache : gmap string obj) s postId error :
  cache !! to_key postId = None → inherited (to_key postId) = false →
  net obj (GetById postId) = Rejected error →
  run net (toggleLike StringToNumber cache postId) s =
    (s,
     [Net (GetById postId);
      ToastError (Js.or (response_data_error error) (Str "Failed to load post"))],
     Rejected error).
Proof.
  intros Hk Hin Hget. unfold toggleLike. rewrite (index_missing _ _ Hk Hin).
  prog_simpl. by rewrite Hget.
Qed.

(** [toggleLike] on a post that is not in the cache, under an id that
    names no member of [Object.prototype]: the post is fetched and cached
    under its own id, then toggled under the id that was asked for.  When
    the two ids name the same key the cached post is the fetched one with
    the toggle applied; when they do not, the toggle finds nothing to
    patch, yet the like or unlike request is sent all the same. *)
Theorem toggleLike_fetches_uncached_post net s postId fetched :
  posts s !! to_key postId = None → inherited (to_key postId) = false →
  net obj (GetById postId) = Resolved fetched →
  net unit (Like postId) = Resolved tt →
  net unit (Unlike postId) = Resolved tt →
  ∃ s1,
    toggleLike_now StringToNumber net postId s =
      (s1, [Net (GetById postId); toggle_call fetched postId], Resolved tt) ∧
    posts s1 !! key_of fetched =
      Some (if decide (key_of fetched = to_key postId)
            then spread fetched (toggled StringToNumber fetched) else fetched) ∧
    (key_of fetched ≠ to_key postId → s1 = setPost fetched s).
Proof.
  intros Hk Hin Hget Hlike Hunlike.
  assert (toggleLike_now StringToNumber net postId s =
            (updatePost postId (toggled StringToNumber fetched) (setPost fetched s),
             [Net (GetById postId); toggle_call fetched postId], Resolved tt)) as ->.
  { unfold toggleLike_now, toggleLike, toggle_call. rewrite (index_missing _ _ Hk Hin).
    prog_simpl.
    rewrite Hget. prog_simpl.
    destruct (truthy (wasLiked fetched)); prog_simpl; by rewrite ?Hlike, ?Hunlike. }
  eexists. split; [reflexivity|].
  case_decide as Hkey.
  - split; [|done].
    rewrite (updatePost_present _ _ _ fetched).
    + rewrite Hkey. apply lookup_insert_eq.
    + simpl. fold (key_of fetched). rewrite Hkey. apply lookup_insert_eq.
  - assert (updatePost postId (toggled StringToNumber fetched) (setPost fetched s)
            = setPost fetched s) as Hnop.
    { apply updatePost_absent, index_missing; [|done]. simpl. fold (key_of fetched).
      by rewrite lookup_insert_ne. }
    rewrite Hnop. split; [|done]. simpl. apply lookup_insert_eq.
Qed.

(** Two calls of [toggleLike] from the same render close over the same
    cache, so the second does not undo the first: it sends the same
    request again and leaves the store as the first call left it. *)
Theorem toggleLike_twice_from_one_render net s postId post :
  posts s !! to_key postId = Some post →
  net unit (Like postId) = Resolved tt →
  net unit (Unlike postId) = Resolved tt →
  ∃ s1,
    run net (toggleLike StringToNumber (posts s) postId) s
      = (s1, [toggle_call post postId], Resolved tt) ∧
    run net (toggleLike StringToNumber (posts s) postId) s1
      = (s1, [toggle_call post postId], Resolved tt) ∧
    posts s1 !! to_key postId = Some (spread post (toggled StringToNumber post)).
Proof.
  intros Hk Hlike Hunlike.
  assert (∀ st, run net (toggleLike StringToNumber (posts s) postId) st =
                (updatePost postId (toggled StringToNumber post) st,
                 [toggle_call post postId], Resolved tt)) as Hrun.
  { intros st. unfold toggleLike, toggle_call. rewrite (index_own _ _ _ Hk). prog_simpl.
    destruct (truthy (wasLiked post)); prog_simpl; by rewrite ?Hlike, ?Hunlike. }
  exists (updatePost postId (toggled StringToNumber post) s).
  rewrite !Hrun. split; [done|]. split.
  - f_equal. f_equal. apply store_eq; try done.
    rewrite (updatePost_twice _ _ _ _ _ Hk), (updatePost_present _ _ _ _ Hk).
    f_equal. apply map_eq. intros f. rewrite !spread_lookup.
    by destruct (toggled StringToNumber post !! f).
  - rewrite (updatePost_present _ _ _ _ Hk). apply lookup_insert_eq.
Qed.

(** [refreshPost] replaces the cached post by the server's copy, fields
    the server does not send included, and resolves with it; when the
    request fails the store is untouched, nothing is shown to the user and
    the error is passed on. *)
Theorem refreshPost_overwrites_or_passes_on net s postId :
  (∀ fresh, net obj (GetById postId) = Resolved fresh →
     run net (refreshPost postId) s
       = (setPost fresh s, [Net (GetById postId)], Resolved fresh) ∧
     getPost (posts (setPost fresh s)) (get "id" fresh) = Some (Entity fresh)) ∧
  (∀ error, net obj (GetById postId) = Rejected error →
     run net (refreshPost postId) s
       = (s, [Net (GetById postId); ConsoleError "Failed to refresh post:"],
          Rejected error)).
Proof.
  split.
  - intros fresh Hget. unfold refreshPost. prog_simpl. rewrite Hget.
    split; [done|]. unfold getPost. simpl. apply index_own, lookup_insert_eq.
  - intros error Hget. unfold refreshPost. prog_simpl. by rewrite Hget.
Qed.

End MoreOptimistic.

Section MoreOptimisticRuns.
Import PostContext.

Lemma likePost_is_idempotent_witness :
  posts sample_store !! to_key (Num 7) = Some sample_post ∧
  like_state sample_post false 5 ∧
  ∃ s1 post1,
    likePost_now no_numeric_strings (net_ok ∅) (Num 7) sample_store
      = (s1, [Net (Like (Num 7))], Resolved tt) ∧
    posts s1 !! to_key (Num 7) = Some post1 ∧
    like_state post1 true 6 ∧
    likePost_now no_numeric_strings (net_ok ∅) (Num 7) s1
      = (s1, [Net (Like (Num 7))], Resolved tt).
Proof.
  pose proof sample_store_holds_7 as Hk.
  assert (like_state sample_post false 5) as Hst by (split; reflexivity).
  assert (isSafeInteger 5) as Hsafe by (split; by vm_compute).
  split; [exact Hk|]. split; [exact Hst|].
  destruct (likePost_is_idempotent no_numeric_strings (net_ok ∅) sample_store (Num 7)
              sample_post false 5 Hk Hst Hsafe eq_refl)
    as (s1 & post1 & H1 & H2 & H3 & _ & H5).
  exists s1, post1.
  split; [exact H1|]. split; [exact H2|]. split; [exact H3|]. exact H5.
Defined.

Lemma unlikePost_clamps_at_zero_witness :
  posts inconsistent_store !! to_key (Num 7) = Some inconsistent_post ∧
  like_state inconsistent_post true 0 ∧
  ∃ s1 post1,
    unlikePost_now no_numeric_strings (net_ok ∅) (Num 7) inconsistent_store
      = (s1, [Net (Unlike (Num 7))], Resolved tt) ∧
    posts s1 !! to_key (Num 7) = Some post1 ∧
    like_state post1 false 0.
Proof.
  pose proof inconsistent_store_holds_7 as Hk.
  assert (like_state inconsistent_post true 0) as Hst by (split; reflexivity).
  assert (isSafeInteger 0) as Hsafe by (split; by vm_compute).
  split; [exact Hk|]. split; [exact Hst|].
  destruct (unlikePost_clamps_at_zero no_numeric_strings (net_ok ∅) inconsistent_store (Num 7)
              inconsistent_post true 0 Hk Hst Hsafe eq_refl)
    as (s1 & post1 & H1 & H2 & H3 & _).
  exists s1, post1. exact (conj H1 (conj H2 H3)).
Defined.

Lemma like_and_unlike_roll_back_witness :
  posts sample_store !! to_key (Num 7) = Some sample_post ∧
  like_state sample_post false 5 ∧
  likePost_now no_numeric_strings (net_down offline) (Num 7) sample_store =
    (sample_store, [Net (Like (Num 7)); ToastError (Str "Failed to like post")],
     Rejected offline) ∧
  unlikePost_now no_numeric_strings (net_down offline) (Num 7) sample_store =
    (sample_store, [Net (Unlike (Num 7)); ToastError (Str "Failed to unlike post")],
     Rejected offline).
Proof.
  pose proof sample_store_holds_7 as Hk.
  assert (like_state sample_post false 5) as Hst by (split; reflexivity).
  split; [exact Hk|]. split; [exact Hst|].
  apply (like_and_unlike_roll_back no_numeric_strings (net_down offline) sample_store
           (Num 7) sample_post false 5 offline Hk Hst eq_refl eq_refl).
Defined.

Lemma addComment_counts_or_rolls_back_witness :
  posts sample_store !! to_key (Num 7) = Some sample_post ∧
  sample_post !! "comment_count" = Some (Num 2) ∧
  (∃ s1 post1,
     addComment_now no_numeric_strings (net_ok ∅) (Num 7) "nice" sample_store =
       (s1, [Net (AddComment (Num 7) "nice"); ToastSuccess (Str "Comment added")],
        Resolved (Some ∅)) ∧
     posts s1 !! to_key (Num 7) = Some post1 ∧
     post1 !! "comment_count" = Some (Num 3)) ∧
  addComment_now no_numeric_strings (net_down offline) (Num 7) "nice" sample_store =
    (sample_store,
     [Net (AddComment (Num 7) "nice"); ToastError (Str "Failed to add comment")],
     Rejected offline).
Proof.
  pose proof sample_store_holds_7 as Hk.
  assert (sample_post !! "comment_count" = Some (Num 2)) as Hn by reflexivity.
  assert (isSafeInteger 2) as Hsafe by (split; by vm_compute).
  split; [exact Hk|]. split; [exact Hn|]. split.
  - destruct (proj1 (addComment_counts_or_rolls_back no_numeric_strings (net_ok ∅)
                       sample_store (Num 7) "nice" sample_post 2 Hk Hn Hsafe) ∅ eq_refl)
      as (s1 & post1 & Hrun & Hpost & Hcount & _).
    exists s1, post1. exact (conj Hrun (conj Hpost Hcount)).
  - apply (proj2 (addComment_counts_or_rolls_back no_numeric_strings (net_down offline)
                    sample_store (Num 7) "nice" sample_post 2 Hk Hn Hsafe) offline eq_refl).
Defined.

Lemma toggleLike_fetch_failure_witness :
  posts sample_store !! to_key (Num 9) = None ∧
  run (net_down offline) (toggleLike no_numeric_strings (posts sample_store) (Num 9))
      sample_store =
    (sample_store, [Net (GetById (Num 9)); ToastError (Str "Failed to load post")],
     Rejected offline).
Proof.
  pose proof sample_store_lacks_9 as Hk.
  split; [exact Hk|].
  apply (toggleLike_fetch_failure no_numeric_strings (net_down offline)
           (posts sample_store) sample_store (Num 9) offline Hk eq_refl eq_refl).
Defined.

(** Post 8 is fetched as itself and toggled; asked for post 9, a server
    that answers with post 7 gets its like request although nothing was
    toggled. *)
Lemma toggleLike_fetches_uncached_post_witness :
  posts sample_store !! to_key (Num 8) = None ∧
  posts sample_store !! to_key (Num 9) = None ∧
  (∃ s1,
     toggleLike_now no_numeric_strings (net_ok (post_numbered 8)) (Num 8) sample_store =
       (s1, [Net (GetById (Num 8)); Net (Like (Num 8))], Resolved tt) ∧
     (get "is_liked" <$> posts s1 !! to_key (Num 8)) = Some (Bool true)) ∧
  (∃ s1,
     toggleLike_now no_numeric_strings (net_ok sample_post) (Num 9) sample_store =
       (s1, [Net (GetById (Num 9)); Net (Like (Num 9))], Resolved tt) ∧
     s1 = setPost sample_post sample_store).
Proof.
  pose proof sample_store_lacks_8 as Hk8.
  pose proof sample_store_lacks_9 as Hk9.
  split; [exact Hk8|]. split; [exact Hk9|]. split.
  - destruct (toggleLike_fetches_uncached_post no_numeric_strings (net_ok (post_numbered 8))
                sample_store (Num 8) (post_numbered 8) Hk8 eq_refl eq_refl eq_refl eq_refl)
      as (s1 & Hrun & Hpost & _).
    exists s1. split; [exact Hrun|].
    change (to_key (Num 8)) with (key_of (post_numbered 8)). rewrite Hpost.
    vm_compute. reflexivity.
  - destruct (toggleLike_fetches_uncached_post no_numeric_strings (net_ok sample_post)
                sample_store (Num 9) sample_post Hk9 eq_refl eq_refl eq_refl eq_refl)
      as (s1 & Hrun & _ & Hsame).
    exists s1. split; [exact Hrun|]. apply Hsame. vm_compute. discriminate.
Defined.

Lemma toggleLike_twice_from_one_render_witness :
  posts sample_store !! to_key (Num 7) = Some sample_post ∧
  ∃ s1,
    run (net_ok ∅) (toggleLike no_numeric_strings (posts sample_store) (Num 7)) sample_store
      = (s1, [Net (Like (Num 7))], Resolved tt) ∧
    run (net_ok ∅) (toggleLike no_numeric_strings (posts sample_store) (Num 7)) s1
      = (s1, [Net (Like (Num 7))], Resolved tt) ∧
    (get "like_count" <$> posts s1 !! to_key (Num 7)) = Some (Num 6).
Proof.
  pose proof sample_store_holds_7 as Hk.
  split; [exact Hk|].
  destruct (toggleLike_twice_from_one_render no_numeric_strings (net_ok ∅) sample_store
              (Num 7) sample_post Hk eq_refl eq_refl) as (s1 & Hfirst & Hsecond & Hpost).
  exists s1. split; [exact Hfirst|]. split; [exact Hsecond|].
  rewrite Hpost. vm_compute. reflexivity.
Defined.

Lemma refreshPost_overwrites_or_passes_on_witness :
  let fresh := post_numbered 7 in
  run (net_ok fresh) (refreshPost (Num 7)) sample_store
    = (setPost fresh sample_store, [Net (GetById (Num 7))], Resolved fresh) ∧
  getPost (posts (setPost fresh sample_store)) (Num 7) = Some (Entity fresh) ∧
  run (net_down offline) (refreshPost (Num 7)) sample_store
    = (sample_store, [Net (GetById (Num 7)); ConsoleError "Failed to refresh post:"],
       Rejected offline).
Proof.
  cbv zeta.
  destruct (refreshPost_overwrites_or_passes_on (net_ok (post_numbered 7)) sample_store
              (Num 7)) as [Hok _].
  destruct (refreshPost_overwrites_or_passes_on (net_down offline) sample_store (Num 7))
    as [_ Hfail].
  destruct (Hok (post_numbered 7) eq_refl) as [Hrun Hget].
  split; [exact Hrun|]. split; [exact Hget|]. exact (Hfail offline eq_refl).
Defined.

End MoreOptimisticRuns.

(** ** The handlers of the cards, with a session *)

Lemma run_try_finally {S A : Type} (net : Network) (p : Prog S A) (fin : Prog S unit) (s : S) :
  run net (try_finally p fin) s =
    let '(s1, tr1, r) := run net p s in
    let '(s2, tr2, r2) := run net fin s1 in
    (s2, tr1 ++ tr2, match r2 with Resolved _ => r | Rejected e => Rejected e end).
Proof.
  revert s. induction p as [a|e|f k IH|ev k IH|R c k IHk h IHh]; intros s; simpl.
  - rewrite run_bind.
    destruct (run net fin s) as [[s2 tr2] [u|e]]; simpl; by rewrite ?app_nil_r.
  - rewrite run_bind.
    destruct (run net fin s) as [[s2 tr2] [u|e']]; simpl; by rewrite ?app_nil_r.
  - apply IH.
  - rewrite IH. destruct (run net k s) as [[s1 tr1] r].
    by destruct (run net fin s1) as [[s2 tr2] r2].
  - destruct (net R c) as [d|e].
    + rewrite IHk. destruct (run net (k d) s) as [[s1 tr1] r].
      by destruct (run net fin s1) as [[s2 tr2] r2].
    + rewrite IHh. destruct (run net (h e) s) as [[s1 tr1] r].
      by destruct (run net fin s1) as [[s2 tr2] r2].
Qed.

Section CardHandlers.
Import PostContext.
Variable StringToNumber : string → val.
Variable trim : string → string.
Implicit Types (net : Network) (card : PostCard.Card) (post : obj).

Lemma run_in_ctx {A : Type} net (p : Prog Store A) card :
  run net (PostCard.in_ctx p) card =
    let '(c1, tr, r) := run net p (PostCard.ctx card) in (PostCard.with_ctx c1 card, tr, r).
Proof.
  unfold PostCard.in_ctx. apply run_zoom; [done|done|by intros []].
Qed.

(** [handleLike] never rejects: whatever the session, the cache and the
    network, its promise resolves and the card's own fields are untouched;
    with a session it does to the store and the network exactly what
    [toggleLike] does. *)
Theorem handleLike_swallows_failures
    net (isAuthenticated : bool) (cache : gmap string obj) post card :
  ∃ card' tr,
    run net (PostCard.handleLike StringToNumber isAuthenticated cache post) card
      = (card', tr, Resolved tt) ∧
    PostCard.commentText card' = PostCard.commentText card ∧
    PostCard.isSubmitting card' = PostCard.isSubmitting card ∧
    PostCard.isDeleting card' = PostCard.isDeleting card ∧
    (if isAuthenticated
     then (PostCard.ctx card', tr)
          = (run net (toggleLike StringToNumber cache (get "id" post)) (PostCard.ctx card)).1
     else PostCard.ctx card' = PostCard.ctx card).
Proof.
  unfold PostCard.handleLike. destruct isAuthenticated; simpl negb; cbv iota.
  - rewrite run_try_catch, run_in_ctx.
    destruct (run net _ (PostCard.ctx card)) as [[c1 tr] [[]|e]]; simpl.
    + by eexists _, _.
    + eexists _, _. rewrite app_nil_r. done.
  - by eexists _, _.
Qed.

(** [handleComment] with a session and a text that is not blank: whatever
    happens, the submit flag is down afterwards and the promise resolves;
    the text field is emptied exactly when [addComment] resolved, and kept
    for another try when it rejected.  As [addComment] resolves at once for
    a post the cache does not hold (under an id that names no member of
    [Object.prototype]), the text is then emptied although no comment was
    sent. *)
Theorem handleComment_resets_the_form
    net (cache : gmap string obj) post (text : string) card :
  truthy (Str (trim text)) = true →
  run net (PostCard.handleComment StringToNumber trim true cache post text) card =
    (let '(c1, tr, r) :=
       run net (addComment StringToNumber cache (get "id" post) text) (PostCard.ctx card) in
     ({| PostCard.ctx := c1;
         PostCard.commentText :=
           match r with Resolved _ => "" | Rejected _ => PostCard.commentText card end;
         PostCard.isSubmitting := false;
         PostCard.isDeleting := PostCard.isDeleting card |},
      tr, Resolved tt)) ∧
  (cache !! to_key (get "id" post) = None → inherited (to_key (get "id" post)) = false →
   run net (PostCard.handleComment StringToNumber trim true cache post text) card =
     ({| PostCard.ctx := PostCard.ctx card; PostCard.commentText := "";
         PostCard.isSubmitting := false;
         PostCard.isDeleting := PostCard.isDeleting card |}, [], Resolved tt)).
Proof.
  intros Htext.
  assert (run net (PostCard.handleComment StringToNumber trim true cache post text) card =
    (let '(c1, tr, r) :=
       run net (addComment StringToNumber cache (get "id" post) text) (PostCard.ctx card) in
     ({| PostCard.ctx := c1;
         PostCard.commentText :=
           match r with Resolved _ => "" | Rejected _ => PostCard.commentText card end;
         PostCard.isSubmitting := false;
         PostCard.isDeleting := PostCard.isDeleting card |},
      tr, Resolved tt))) as Hrun.
  { unfold PostCard.handleComment. rewrite Htext. simpl negb. simpl orb. cbv iota.
    unfold mbind, prog_bind. cbn [update bind run].
    rewrite run_try_finally, run_try_catch, run_bind, run_in_ctx. cbn [PostCard.ctx PostCard.setIsSubmitting].
    destruct (run net _ (PostCard.ctx card)) as [[c1 tr] [comment|e]]; simpl;
      by rewrite !app_nil_r. }
  split; [exact Hrun|].
  intros Hk Hin. rewrite Hrun. unfold addComment. by rewrite (index_missing _ _ Hk Hin).
Qed.

(** Without words there is nothing to send: a text that trims to nothing
    stops [handleComment] even with a session. *)
Lemma handleComment_blank net (isAuthenticated : bool) (cache : gmap string obj)
    post (text : string) card :
  trim text = "" →
  run net (PostCard.handleComment StringToNumber trim isAuthenticated cache post text) card
    = (card, [], Resolved tt).
Proof. intros Hblank. unfold PostCard.handleComment. by rewrite Hblank. Qed.

End CardHandlers.

Section DeleteHandlers.
Import PostContext.
Implicit Types (net : Network) (user : option obj) (post : obj).

(** [handleDelete] does nothing at all, no request and no change, unless
    there is a session whose user's id is the post's [user_id] and the
    user confirmed the dialog. *)
Theorem handleDelete_needs_owner_and_confirmation
    net (isAuthenticated : bool) user post (confirmed : bool) (card : PostCard.Card) :
  ¬ (isAuthenticated = true ∧ confirmed = true ∧
     ∃ u, user = Some u ∧ PostCard.strict_eq (get "user_id" post) (get "id" u) = true) →
  run net (PostCard.handleDelete isAuthenticated user post confirmed) card
    = (card, [], Resolved tt).
Proof.
  intros Hnot. unfold PostCard.handleDelete, PostCard.isOwnPost.
  destruct isAuthenticated; [|done].
  destruct user as [u|]; [|done]. simpl.
  destruct (PostCard.strict_eq (get "user_id" post) (get "id" u)) eqn:Hown; [|done].
  destruct confirmed; [|done].
  exfalso. apply Hnot. split_and!; try done. by exists u.
Qed.

Lemma handleDelete_needs_owner_and_confirmation_witness :
  let stranger : obj := {[ "id" := Num 4 ]} in
  run (net_ok ∅) (PostCard.handleDelete true (Some stranger) sample_post true) sample_card
    = (sample_card, [], Resolved tt).
Proof.
  cbv zeta.
  apply (handleDelete_needs_owner_and_confirmation (net_ok ∅) true
           (Some {[ "id" := Num 4 ]}) sample_post true sample_card).
  intros (_ & _ & u & [= <-] & Hown). vm_compute in Hown. discriminate.
Defined.

Lemma run_in_comments {A : Type} net (p : Prog Store A) (list : CommentList.Comments) :
  run net (zoom CommentList.ctx CommentList.with_ctx p) list =
    let '(c1, tr, r) := run net p (CommentList.ctx list) in
    (CommentList.with_ctx c1 list, tr, r).
Proof. apply run_zoom; [done|done|by intros []]. Qed.

(** [handleDeleteComment] with a session, for whatever [deleteComment] the
    context provides: declined in the dialog it does nothing; confirmed,
    it runs the action, and the comment leaves the list and the success
    toast shows only if the action resolved; if it rejected, the list is
    as before.  Either way the marker of the comment being deleted is
    cleared and the handler's own promise resolves. *)
Theorem handleDeleteComment_removes_on_success
    (deleteComment : val → val → Prog Store unit)
    net (u : obj) (postId commentId : val) (list : CommentList.Comments) :
  run net (CommentList.handleDeleteComment deleteComment None true (Some u)
             postId commentId false) list = (list, [], Resolved tt) ∧
  run net (CommentList.handleDeleteComment deleteComment None true (Some u)
             postId commentId true) list =
    (let '(c1, tr, r) := run net (deleteComment commentId postId) (CommentList.ctx list) in
     match r with
     | Resolved _ =>
         ({| CommentList.ctx := c1;
             CommentList.comments :=
               filter (fun c => PostCard.strict_eq (get "id" c) commentId = false)
                      (CommentList.comments list);
             CommentList.loading := CommentList.loading list;
             CommentList.deletingCommentId := Null |},
          tr ++ [ToastSuccess (Str "Comment deleted successfully")], Resolved tt)
     | Rejected _ =>
         ({| CommentList.ctx := c1;
             CommentList.comments := CommentList.comments list;
             CommentList.loading := CommentList.loading list;
             CommentList.deletingCommentId := Null |},
          tr, Resolved tt)
     end).
Proof.
  split; [done|].
  unfold CommentList.handleDeleteComment. simpl negb. simpl orb. cbv iota.
  unfold mbind, prog_bind, mret, prog_ret. cbn [update emit bind run].
  rewrite run_try_finally, run_try_catch, run_bind, run_in_comments.
  cbn [CommentList.ctx CommentList.setDeletingCommentId].
  destruct (run net _ (CommentList.ctx list)) as [[c1 tr] [[]|e]]; simpl;
    by rewrite ?app_nil_r.
Qed.

End DeleteHandlers.

Section CardRuns.
Import PostContext.

Lemma handleComment_resets_the_form_witness :
  truthy (Str (ascii_trim "nice")) = true ∧
  run (net_ok ∅)
    (PostCard.handleComment no_numeric_strings ascii_trim true (posts sample_store)
       sample_post "nice") sample_card
  = ({| PostCard.ctx := updatePost (Num 7) {[ "comment_count" := Num 3 ]} sample_store;
        PostCard.commentText := ""; PostCard.isSubmitting := false;
        PostCard.isDeleting := false |},
     [Net (AddComment (Num 7) "nice"); ToastSuccess (Str "Comment added")], Resolved tt) ∧
  run (net_down offline)
    (PostCard.handleComment no_numeric_strings ascii_trim true (posts sample_store)
       sample_post "nice") sample_card
  = ({| PostCard.ctx :=
          updatePost (Num 7) {[ "comment_count" := Num 2 ]}
            (updatePost (Num 7) {[ "comment_count" := Num 3 ]} sample_store);
        PostCard.commentText := "nice"; PostCard.isSubmitting := false;
        PostCard.isDeleting := false |},
     [Net (AddComment (Num 7) "nice"); ToastError (Str "Failed to add comment")],
     Resolved tt).
Proof.
  assert (truthy (Str (ascii_trim "nice")) = true) as Htext by reflexivity.
  split; [exact Htext|]. split.
  - rewrite (proj1 (handleComment_resets_the_form no_numeric_strings ascii_trim (net_ok ∅)
                      (posts sample_store) sample_post "nice" sample_card Htext)).
    vm_compute. reflexivity.
  - rewrite (proj1 (handleComment_resets_the_form no_numeric_strings ascii_trim
                      (net_down offline) (posts sample_store) sample_post "nice"
                      sample_card Htext)).
    vm_compute. reflexivity.
Defined.

End CardRuns.

(** ** The feed page, beyond Load More *)

Section FeedPage.
Import Feed.
Implicit Types (m : Mounted) (s : FeedState) (net : Network).





(** [fetchFeed] whose request is rejected: the store, the page number and
    [hasMore] are as before, both loading flags are down, the user sees the
    server's message, else the error's own, else the fallback; the promise
    resolves. *)
Theorem fetchFeed_failure_keeps_the_feed net (p : Z) s error :
  net FeedPage (GetFeed p 10) = Rejected error →
  run net (fetchFeed p) s =
    ({| ctx := ctx s; loading := false; page := page s; hasMore := hasMore s;
        loadingMore := false |},
     [Net (GetFeed p 10);
      ToastError (Js.or (response_data_error error)
                    (Js.or (error_message error) (Str "Failed to load feed")));
      ConsoleError "Feed loading error:"],
     Resolved tt).
Proof.
  intros Hnet. unfold fetchFeed. destruct (p =? 1); prog_simpl; by rewrite Hnet.
Qed.

Lemma truthy_or_false (v : val) : truthy (Js.or v (Bool false)) = truthy v.
Proof. unfold Js.or. by destruct (truthy v) eqn:Hv. Qed.

(** [fetchFeed] whose request succeeds: the posts of the page are cached
    (each under its id, when none has the id [__proto__]); page 1 replaces
    the feed by the page's ids, whatever it held, and any other page
    appends them by first appearance; [hasMore] follows the server's flag
    alone, not the size of the page; a response without a post list counts
    as an empty page. *)
Theorem fetchFeed_success_merges_the_page net (p : Z) s (response : FeedPage) :
  net FeedPage (GetFeed p 10) = Resolved response →
  let newPosts := default [] (data_posts response) in
  let postIds := map (get "id") newPosts in
  ∃ s',
    run net (fetchFeed p) s = (s', [Net (GetFeed p 10)], Resolved tt) ∧
    PostContext.feedPosts (ctx s') =
      (if p =? 1 then postIds else new_Set (PostContext.feedPosts (ctx s) ++ postIds)) ∧
    PostContext.posts (ctx s') = PostContext.posts (PostContext.setPostsBatch newPosts (ctx s)) ∧
    (Forall (fun post => key_of post ≠ "__proto__") newPosts →
     PostContext.posts (ctx s') =
       foldl (fun updated post => <[key_of post := post]> updated)
             (PostContext.posts (ctx s)) newPosts) ∧
    truthy (hasMore s') = truthy (data_has_next response) ∧
    page s' = page s ∧ loading s' = false ∧ loadingMore s' = false.
Proof.
  intros Hnet newPosts postIds. unfold fetchFeed.
  destruct (p =? 1); prog_simpl; rewrite Hnet; prog_simpl;
    (eexists; split; [reflexivity|]); simpl; split_and!; try done.
  - intros Hids. by rewrite (assign_plain _ _ _ Hids).
  - apply truthy_or_false.
  - apply fold_add_new_Set.
  - intros Hids. by rewrite (assign_plain _ _ _ Hids).
  - apply truthy_or_false.
Qed.

End FeedPage.

Section FeedRuns.
Import Feed.
Implicit Types (m : Mounted) (s : FeedState) (net : Network).

Lemma fetchFeed_failure_keeps_the_feed_witness :
  let s := setLoadingMore true (setPage (fun _ => 2) (initial sample_store)) in
  run (net_down offline) (fetchFeed 2) s =
    ({| ctx := sample_store; loading := false; page := 2; hasMore := Bool true;
        loadingMore := false |},
     [Net (GetFeed 2 10); ToastError (Str "Network Error");
      ConsoleError "Feed loading error:"],
     Resolved tt).
Proof.
  cbv zeta.
  apply (fetchFeed_failure_keeps_the_feed (net_down offline) 2
           (setLoadingMore true (setPage (fun _ => 2) (initial sample_store))) offline
           eq_refl).
Defined.

Lemma fetchFeed_success_merges_the_page_witness :
  (∃ s',
     run net_two_pages (fetchFeed 1) (initial sample_store)
       = (s', [Net (GetFeed 1 10)], Resolved tt) ∧
     PostContext.feedPosts (ctx s') = [Num 7; Num 8] ∧
     truthy (hasMore s') = true) ∧
  (∃ s',
     run net_two_pages (fetchFeed 2) (initial sample_store)
       = (s', [Net (GetFeed 2 10)], Resolved tt) ∧
     PostContext.feedPosts (ctx s') = [Num 7; Num 8; Num 9] ∧
     truthy (hasMore s') = false).
Proof.
  split.
  - destruct (fetchFeed_success_merges_the_page net_two_pages 1 (initial sample_store)
                _ eq_refl) as (s' & Hrun & Hfeed & _ & _ & Hmore & _).
    exists s'. split; [exact Hrun|]. split; [exact Hfeed | exact Hmore].
  - destruct (fetchFeed_success_merges_the_page net_two_pages 2 (initial sample_store)
                _ eq_refl) as (s' & Hrun & Hfeed & _ & _ & Hmore & _).
    exists s'. split; [exact Hrun|]. split; [exact Hfeed | exact Hmore].
Defined.

Lemma requests_app (evs1 evs2 : list Event) :
  requests (evs1 ++ evs2) = requests evs1 ++ requests evs2.
Proof. apply filter_app. Qed.

(** A settling fetch sends nothing and keeps the page number. *)
Lemma settle_fetch_quiet net (p : Z) (st : FeedState) (evs : list Event) :
  ∃ s' evs',
    settle net 0 {| state := st; inflight := [fetch_pending p]; log := evs |}
      = {| state := s'; inflight := []; log := evs ++ evs' |} ∧
    requests evs' = [] ∧ page s' = page st.
Proof.
  unfold settle, spawn, fetch_pending, fetchFeed.
  destruct (p =? 1); cbn;
    destruct (net FeedPage (GetFeed p 10)) as [d|e]; cbn;
    eexists _, _; (split; [reflexivity | done]).
Qed.

Lemma page_requests_next (n : Z) :
  0 ≤ n → page_requests (n + 1) = page_requests n ++ [Net (GetFeed (n + 1) 10)].
Proof.
  intros Hn. unfold page_requests. rewrite seqZ_app by lia. rewrite fmap_app.
  f_equal. rewrite seqZ_cons by lia. rewrite seqZ_nil by lia. simpl.
  by rewrite (Z.add_comm 1 n).
Qed.

(** The page number stays a number that counts exactly. *)
Lemma reachable_pages m :
  reachable true m →
  1 ≤ page (state m) ≤ 2 ^ 53 ∧ requests (log m) = page_requests (page (state m)).
Proof.
  intros Hreach.
  induction Hreach as [c|m Hm IH|net i m Hm IH|f m Hm IH].
  - unfold mount, effect. rewrite (spawn_fetchFeed 1). simpl. done.
  - destruct IH as [Hpage Hlog]. unfold loadMore.
    destruct (button_enabled true (state m)) eqn:Hbtn; [|done].
    apply button_enabled_flags in Hbtn as (_ & Hl & Hlm & Hmore).
    destruct (decide (to_double (page (state m) + 1) = page (state m))) as [Heq|Hne].
    { rewrite call_handleLoadMore_stays; [done|].
      by rewrite (handleLoadMore_advances _ Hlm Hmore). }
    rewrite (call_handleLoadMore_fetches _ _ eq_refl Hlm Hmore Hne), spawn_fetchFeed.
    cbn [state log].
    assert (page (state m) < 2 ^ 53) as Hlt.
    { destruct (decide (page (state m) = 2 ^ 53)) as [Htop|]; [|lia].
      exfalso. apply Hne. rewrite Htop. apply to_double_absorbs. }
    assert (to_double (page (state m) + 1) = page (state m) + 1) as Hnext.
    { apply to_double_exact. lia. }
    rewrite Hnext.
    assert (page (if page (state m) + 1 =? 1
                  then setLocalLoading true
                         (setPage (fun prev => to_double (prev + 1)) (state m))
                  else setLoadingMore true
                         (setPage (fun prev => to_double (prev + 1)) (state m)))
            = page (state m) + 1) as ->.
    { destruct (page (state m) + 1 =? 1); simpl; exact Hnext. }
    split; [lia|].
    rewrite requests_app, Hlog. by rewrite page_requests_next by lia.
  - destruct IH as [Hpage Hlog].
    pose proof (reachable_one_fetch_flagged _ _ Hm) as Hinv.
    unfold one_fetch_flagged in Hinv.
    destruct m as [st pending evs]. simpl in *.
    destruct pending as [|susp [|susp' rest]]; [by destruct i| |done].
    destruct Hinv as [[p ->] _].
    destruct i as [|i]; [|done].
    destruct (settle_fetch_quiet net p st evs) as (s' & evs' & -> & Hquiet & Hsame).
    simpl. rewrite requests_app, Hquiet, app_nil_r, Hsame. done.
  - done.
Qed.

(** While the page is mounted with a session, the page number starts at 1
    and only grows, and the requests sent so far are exactly the feed
    pages 1 up to the current page number, each once, in order, ten posts
    a page: no page is skipped, asked twice, or asked ahead. *)
Theorem feed_requests_follow_the_pages m :
  reachable true m →
  1 ≤ page (state m) ∧ requests (log m) = page_requests (page (state m)).
Proof.
  intros Hreach. destruct (reachable_pages _ Hreach) as [[Hpage _] Hlog]. done.
Qed.

(** Without a session the mounted page never sends a request: nothing is
    ever pending, nothing is logged and the page number stays 1. *)
Theorem feed_without_session_is_silent m :
  reachable false m →
  log m = [] ∧ inflight m = [] ∧ page (state m) = 1 ∧ loading (state m) = false.
Proof.
  intros Hreach.
  induction Hreach as [c|m Hm IH|net i m Hm IH|f m Hm IH].
  - done.
  - unfold loadMore, button_enabled, button_rendered. done.
  - destruct IH as (Hlog & Hpending & Hpage & Hl). unfold settle. by rewrite Hpending.
  - done.
Qed.

Lemma feed_requests_follow_the_pages_witness :
  reachable true feed_after_two_pages ∧
  page (state feed_after_two_pages) = 2 ∧
  requests (log feed_after_two_pages) = [Net (GetFeed 1 10); Net (GetFeed 2 10)].
Proof.
  assert (reachable true feed_after_two_pages) as Hreach.
  { unfold feed_after_two_pages. apply reach_settle, reach_loadMore, reach_settle, reach_mount. }
  split; [exact Hreach|]. split; [reflexivity|].
  rewrite (proj2 (feed_requests_follow_the_pages _ Hreach)). reflexivity.
Defined.

Lemma feed_without_session_is_silent_witness :
  let m := loadMore false (settle net_two_pages 0 (loadMore false
             (mount false sample_store))) in
  reachable false m ∧ log m = [] ∧ page (state m) = 1.
Proof.
  cbv zeta.
  assert (reachable false (loadMore false (settle net_two_pages 0 (loadMore false
             (mount false sample_store))))) as Hreach.
  { apply reach_loadMore, reach_settle, reach_loadMore, reach_mount. }
  split; [exact Hreach|].
  destruct (feed_without_session_is_silent _ Hreach) as (Hlog & _ & Hpage & _).
  by split.
Defined.

End FeedRuns.

(** ** The session, beyond expiry and signup *)

Section MoreSession.
Import AuthContext.
Variable jwtDecode : string → option JwtPayload.
Variable JSON_parse : string → option any.
Variable JSON_stringify : any → string.
Implicit Types (s : Session) (net : Network).

(** A login the server answers with a truthy token and a user creates the
    session: both are held and stored (the token as a string, the user
    serialized), the session is authenticated and the form is told so. *)
Theorem login_creates_the_session net s username password (newToken : val) (userData : obj) :
  net LoginData (Login username password)
    = Resolved {| data_token := newToken; data_user := Some userData |} →
  truthy newToken = true →
  ∃ s',
    run net (login JSON_stringify username password) s
      = (s', [Net (Login username password)],
         Resolved {| success := true; error := Undefined; message := Undefined |}) ∧
    token s' = newToken ∧ user s' = Object userData ∧
    stored_token s' = Some (to_string newToken) ∧
    stored_user s' = Some (JSON_stringify (Object userData)) ∧
    isAuthenticated s' = true.
Proof.
  intros Hnet Htok. unfold login, api. prog_simpl. rewrite Hnet. cbn [data_token data_user].
  rewrite Htok. cbn [negb]. prog_simpl. eexists. split; [reflexivity|].
  split_and!; try reflexivity.
  unfold isAuthenticated. cbn [token user setUser setToken truthy_any].
  by rewrite Htok.
Qed.

(** A login that does not go through leaves the [token] and [user] cells
    alone, so whoever was logged in stays logged in until the page is
    loaded again, and its promise resolves in every case.  When the
    response lacks a token or a user nothing changes at all and the form
    gets "Invalid response from server".  When the request is rejected the
    form gets the network message if there was no response, else the
    server's error, else the error's message, else "Login failed"; the two
    stored entries are as before unless the rejection was a 401, in which
    case the interceptor has removed both (and has sent the window to
    /login, which the events do not record).  A rejected signup behaves
    the same way. *)
Theorem failed_login_keeps_the_session net s username password :
  (∀ (newToken : val) (userData : option obj),
     net LoginData (Login username password)
       = Resolved {| data_token := newToken; data_user := userData |} →
     truthy newToken = false ∨ userData = None →
     run net (login JSON_stringify username password) s
       = (s, [Net (Login username password)],
          Resolved {| success := false; error := Str "Invalid response from server";
                      message := Undefined |})) ∧
  (∀ err, net LoginData (Login username password) = Rejected err →
     run net (login JSON_stringify username password) s
       = (if unauthorized err then clear_storage s else s,
          [Net (Login username password); ConsoleError "Login error:"],
          Resolved (failure err "Login failed"))) ∧
  (∀ err email, net obj (Signup username email password) = Rejected err →
     run net (signup username email password) s
       = (if unauthorized err then clear_storage s else s,
          [Net (Signup username email password); ConsoleError "Signup error:"],
          Resolved (failure err "Signup failed"))) ∧
  (token (clear_storage s) = token s ∧ user (clear_storage s) = user s ∧
   isAuthenticated (clear_storage s) = isAuthenticated s ∧
   stored_token (clear_storage s) = None ∧ stored_user (clear_storage s) = None) ∧
  (∀ err fallback,
     success (failure err fallback) = false ∧
     (has_response err = false →
      error (failure err fallback)
        = Str "Network error. Please check if the server is running.") ∧
     (has_response err = true →
      error (failure err fallback)
        = Js.or (response_data_error err) (Js.or (error_message err) (Str fallback)))).
Proof.
  split_and!; try done.
  - intros newToken userData Hnet Hbad. unfold login, api. prog_simpl. rewrite Hnet.
    cbn [data_token data_user].
    destruct userData as [userData|]; [|done].
    destruct Hbad as [Htok|]; [|done]. by rewrite Htok.
  - intros err Hnet. unfold login, api. prog_simpl. rewrite Hnet.
    by destruct (unauthorized err).
  - intros err email Hnet. unfold signup, api. prog_simpl. rewrite Hnet.
    by destruct (unauthorized err).
  - intros err fallback. unfold failure. by destruct (has_response err).
Qed.

Lemma restore_fresh (now : Z) (t u : string) (decoded : JwtPayload) (parsed : any) :
  t ≠ "" → u ≠ "" →
  jwtDecode t = Some decoded →
  exp_after decoded (inject_Z now / 1000) = true →
  JSON_parse u = Some parsed →
  restore jwtDecode JSON_parse now (initial (Some t) (Some u)) =
    {| user := parsed; token := Str t; loading := false;
       stored_token := Some t; stored_user := Some u |}.
Proof.
  intros Ht Hu Hdec Hfresh Hparse. unfold restore, initial.
  cbn [stored_token stored_user].
  rewrite (present_nonempty _ Ht), (present_nonempty _ Hu).
  change (default "" (Some t)) with t. change (default "" (Some u)) with u.
  cbn [andb]. by rewrite Hdec, Hfresh, Hparse.
Qed.

(** Logging in and then reloading the page restores the same session, as
    long as the stored token expires a millisecond or more after the load
    time (a margin no rounding of [Date.now() / 1000] bridges, [now] being
    a time value) and [JSON.parse] reads back what [JSON.stringify]
    wrote. *)
Theorem login_survives_reload
    net s username password (t : string) (userData : obj) (now : Z)
    (decoded : JwtPayload) (e : Q) :
  net LoginData (Login username password)
    = Resolved {| data_token := Str t; data_user := Some userData |} →
  t ≠ "" →
  JSON_stringify (Object userData) ≠ "" →
  JSON_parse (JSON_stringify (Object userData)) = Some (Object userData) →
  jwtDecode t = Some decoded →
  exp decoded = Some e →
  0 ≤ now ≤ 8640000000000000 →
  (inject_Z (now + 1) / 1000 <= e)%Q →
  let s' := (run net (login JSON_stringify username password) s).1.1 in
  let reloaded := restore jwtDecode JSON_parse now (initial (stored_token s') (stored_user s')) in
  token reloaded = token s' ∧ user reloaded = user s' ∧
  isAuthenticated reloaded = true ∧
  stored_token reloaded = stored_token s' ∧ stored_user reloaded = stored_user s'.
Proof.
  intros Hnet Ht Hstr Hparse Hdec He Hnow Hmargin.
  assert (inject_Z now / 1000 < e)%Q as Hlt.
  { eapply Qlt_le_trans; [|exact Hmargin].
    unfold Qlt, Qdiv, Qmult, Qinv, inject_Z. simpl. lia. }
  assert (truthy (Str t) = true) as Htok by (by destruct t).
  assert (exp_after decoded (inject_Z now / 1000) = true) as Hfresh.
  { unfold exp_after. rewrite He. apply negb_true_iff.
    destruct (Qle_bool e (inject_Z now / 1000)) eqn:Hle; [|done].
    apply Qle_bool_iff in Hle. exfalso. by apply (Qlt_not_le _ _ Hlt). }
  assert ((run net (login JSON_stringify username password) s).1.1 =
            {| user := Object userData; token := Str t; loading := loading s;
               stored_token := Some t;
               stored_user := Some (JSON_stringify (Object userData)) |}) as Hs'.
  { unfold login, api. prog_simpl. rewrite Hnet. cbn [data_token data_user].
    rewrite Htok. cbn [negb]. prog_simpl. reflexivity. }
  cbv zeta. rewrite Hs'. cbn [stored_token stored_user token user].
  rewrite (restore_fresh now t _ decoded (Object userData) Ht Hstr Hdec Hfresh Hparse).
  unfold isAuthenticated. cbn [token user truthy_any]. by rewrite Htok.
Qed.

(** What the mount effect does with stored data it cannot use.  With one
    of the two entries missing or empty it touches nothing, so a stray
    entry stays in storage; with both present, a token that cannot be
    decoded, or a user that cannot be parsed, has both entries removed.
    In no such case is the session authenticated, though in the last one
    the token cell already holds the stored token. *)
Theorem restore_discards_unusable_data (now : Z) (storedToken storedUser : option string) :
  let s := restore jwtDecode JSON_parse now (initial storedToken storedUser) in
  (present storedToken = false ∨ present storedUser = false →
     s = setLoading false (initial storedToken storedUser)) ∧
  (∀ t u, storedToken = Some t → storedUser = Some u → t ≠ "" → u ≠ "" →
     jwtDecode t = None →
     s = setLoading false (initial None None)) ∧
  (∀ t u decoded, storedToken = Some t → storedUser = Some u → t ≠ "" → u ≠ "" →
     jwtDecode t = Some decoded → exp_after decoded (inject_Z now / 1000) = true →
     JSON_parse u = None →
     stored_token s = None ∧ stored_user s = None ∧
     token s = Str t ∧ user s = Prim Null ∧ isAuthenticated s = false).
Proof.
  cbv zeta. unfold restore, initial. cbn [stored_token stored_user]. split_and!.
  - intros [-> | ->]; [done|]. by rewrite andb_false_r.
  - intros t u -> -> Ht Hu Hdec.
    rewrite (present_nonempty _ Ht), (present_nonempty _ Hu).
    change (default "" (Some t)) with t. cbn [andb]. by rewrite Hdec.
  - intros t u decoded -> -> Ht Hu Hdec Hfresh Hparse.
    rewrite (present_nonempty _ Ht), (present_nonempty _ Hu).
    change (default "" (Some t)) with t. change (default "" (Some u)) with u.
    cbn [andb]. rewrite Hdec, Hfresh, Hparse. unfold isAuthenticated. simpl.
    by rewrite andb_false_r.
Qed.

(** Logging out from the bar ends the session and empties the store:
    no token or user is held or stored, no post is cached under any id,
    no list has an entry, the user is sent to the login page, and a reload
    afterwards finds nothing to restore. *)
Theorem handleLogout_clears_everything (a : Navbar.App) (now : Z) :
  let '(a', evs) := Navbar.handleLogout a in
  evs = [Navigate "/login"] ∧
  isAuthenticated (Navbar.session a') = false ∧
  token (Navbar.session a') = Null ∧ user (Navbar.session a') = Prim Null ∧
  stored_token (Navbar.session a') = None ∧ stored_user (Navbar.session a') = None ∧
  PostContext.posts (Navbar.store a') = ∅ ∧
  PostContext.feedPosts (Navbar.store a') = [] ∧
  PostContext.userPosts (Navbar.store a') = ∅ ∧
  isAuthenticated
    (restore jwtDecode JSON_parse now
       (initial (stored_token (Navbar.session a')) (stored_user (Navbar.session a'))))
    = false.
Proof. simpl. split_and!; done. Qed.

End MoreSession.

Section MoreSessionRuns.
Import AuthContext.

Lemma login_creates_the_session_witness :
  ∃ s',
    run net_login (login sample_JSON_stringify "ann" "secret") (initial None None)
      = (s', [Net (Login "ann" "secret")],
         Resolved {| success := true; error := Undefined; message := Undefined |}) ∧
    token s' = Str "fresh.jwt" ∧ user s' = Object sample_user ∧
    stored_token s' = Some "fresh.jwt" ∧ stored_user s' = Some "ann.json" ∧
    isAuthenticated s' = true.
Proof.
  apply (login_creates_the_session sample_JSON_stringify net_login (initial None None)
           "ann" "secret" (Str "fresh.jwt") sample_user eq_refl eq_refl).
Defined.

Lemma failed_login_keeps_the_session_witness :
  run (net_ok ∅) (login sample_JSON_stringify "ann" "secret") logged_in
    = (logged_in, [Net (Login "ann" "secret")],
       Resolved {| success := false; error := Str "Invalid response from server";
                   message := Undefined |}) ∧
  run (net_down offline) (login sample_JSON_stringify "ann" "wrong") logged_in
    = (logged_in, [Net (Login "ann" "wrong"); ConsoleError "Login error:"],
       Resolved {| success := false;
                   error := Str "Network error. Please check if the server is running.";
                   message := Undefined |}) ∧
  run (net_down wrong_password) (login sample_JSON_stringify "ann" "wrong") logged_in
    = (clear_storage logged_in, [Net (Login "ann" "wrong"); ConsoleError "Login error:"],
       Resolved {| success := false; error := Str "Invalid username or password";
                   message := Undefined |}) ∧
  isAuthenticated (clear_storage logged_in) = true ∧
  stored_token (clear_storage logged_in) = None.
Proof.
  split_and!.
  - apply (proj1 (failed_login_keeps_the_session sample_JSON_stringify (net_ok ∅)
                    logged_in "ann" "secret") Undefined None eq_refl). by left.
  - apply (proj1 (proj2 (failed_login_keeps_the_session sample_JSON_stringify
                           (net_down offline) logged_in "ann" "wrong")) offline eq_refl).
  - apply (proj1 (proj2 (failed_login_keeps_the_session sample_JSON_stringify
                           (net_down wrong_password) logged_in "ann" "wrong"))
             wrong_password eq_refl).
  - reflexivity.
  - reflexivity.
Defined.

Lemma login_survives_reload_witness :
  let s' := (run net_login (login sample_JSON_stringify "ann" "secret")
               (initial None None)).1.1 in
  let reloaded := restore sample_jwtDecode sample_JSON_parse 1800000000000
                    (initial (stored_token s') (stored_user s')) in
  (inject_Z (1800000000000 + 1) / 1000 <= inject_Z 1900000000)%Q ∧
  token reloaded = Str "fresh.jwt" ∧ user reloaded = Object sample_user ∧
  isAuthenticated reloaded = true.
Proof.
  cbv zeta.
  assert (inject_Z (1800000000000 + 1) / 1000 <= inject_Z 1900000000)%Q as Hlt
    by (vm_compute; discriminate).
  split; [exact Hlt|].
  destruct (login_survives_reload sample_jwtDecode sample_JSON_parse sample_JSON_stringify
              net_login (initial None None) "ann" "secret" "fresh.jwt" sample_user
              1800000000000 {| exp := Some (inject_Z 1900000000) |} (inject_Z 1900000000)
              eq_refl) as (Htok & Huser & Hauth & _);
    [discriminate | discriminate | reflexivity | reflexivity | reflexivity | lia
     | exact Hlt |].
  split_and!; [exact Htok | exact Huser | exact Hauth].
Defined.

Lemma restore_discards_unusable_data_witness :
  restore sample_jwtDecode sample_JSON_parse 1800000000000 (initial (Some "fresh.jwt") None)
    = setLoading false (initial (Some "fresh.jwt") None) ∧
  restore sample_jwtDecode sample_JSON_parse 1800000000000
    (initial (Some "garbage") (Some "ann.json"))
    = setLoading false (initial None None) ∧
  (let s := restore sample_jwtDecode sample_JSON_parse 1800000000000
              (initial (Some "fresh.jwt") (Some "not json")) in
   stored_token s = None ∧ token s = Str "fresh.jwt" ∧ isAuthenticated s = false).
Proof.
  split_and!.
  - apply (proj1 (restore_discards_unusable_data sample_jwtDecode sample_JSON_parse
                    1800000000000 (Some "fresh.jwt") None)). by right.
  - apply (proj1 (proj2 (restore_discards_unusable_data sample_jwtDecode sample_JSON_parse
                           1800000000000 (Some "garbage") (Some "ann.json")))
             "garbage" "ann.json"); [reflexivity | reflexivity | discriminate
                                     | discriminate | reflexivity].
  - cbv zeta.
    destruct (proj2 (proj2 (restore_discards_unusable_data sample_jwtDecode
                              sample_JSON_parse 1800000000000
                              (Some "fresh.jwt") (Some "not json")))
                "fresh.jwt" "not json" {| exp := Some (inject_Z 1900000000) |}
                eq_refl eq_refl) as (Hst & _ & Htok & _ & Hauth);
      [discriminate | discriminate | reflexivity | reflexivity | reflexivity |].
    split_and!; [exact Hst | exact Htok | exact Hauth].
Defined.

End MoreSessionRuns.

(** ** Loading the post of a route *)

Section DetailPage.
Import PostDetail.
Implicit Types (net : Network) (s : Detail) (cache : gmap string obj) (id : val).

(** [fetchPost] asks the server only when [getPost] finds nothing for the
    route id in the cache of its render, that is, when the cache has no
    entry for it and the id names no member of [Object.prototype].  A
    fetched post is cached under its own id; a failed fetch leaves the
    store alone, shows the error and sends the user to the home page.  In
    every case the promise resolves and the loading flag is down
    afterwards. *)
Theorem fetchPost_asks_only_when_uncached net cache id s :
  (∀ found, PostContext.getPost cache id = Some found →
     run net (fetchPost cache id) s = (setLoading false s, [], Resolved tt)) ∧
  (∀ fetched, PostContext.getPost cache id = None →
     net obj (GetById id) = Resolved fetched →
     run net (fetchPost cache id) s
       = (setLoading false (with_ctx (PostContext.setPost fetched (ctx s)) s),
          [Net (GetById id)], Resolved tt) ∧
     PostContext.getPost (PostContext.posts (PostContext.setPost fetched (ctx s)))
       (get "id" fetched) = Some (Entity fetched)) ∧
  (∀ error, PostContext.getPost cache id = None →
     net obj (GetById id) = Rejected error →
     run net (fetchPost cache id) s
       = (setLoading false s,
          [Net (GetById id);
           ToastError (Js.or (response_data_error error) (Str "Failed to load post"));
           Navigate "/"],
          Resolved tt)) ∧
  (PostContext.getPost cache id = None ↔
     cache !! to_key id = None ∧ inherited (to_key id) = false).
Proof.
  unfold fetchPost. split_and!.
  - intros found Hk. rewrite Hk. by destruct s.
  - intros fetched Hk Hnet. rewrite Hk. prog_simpl. rewrite Hnet. split.
    + by destruct s.
    + unfold PostContext.getPost. simpl. apply index_own, lookup_insert_eq.
  - intros error Hk Hnet. rewrite Hk. prog_simpl. rewrite Hnet. by destruct s.
  - apply index_None.
Qed.

End DetailPage.

Section DetailRuns.
Import PostDetail.

Lemma fetchPost_asks_only_when_uncached_witness :
  PostContext.getPost (PostContext.posts sample_store) (Num 7) = Some (Entity sample_post) ∧
  PostContext.getPost (PostContext.posts sample_store) (Num 9) = None ∧
  run (net_down offline) (fetchPost (PostContext.posts sample_store) (Num 7)) sample_detail
    = (setLoading false sample_detail, [], Resolved tt) ∧
  run (net_ok (post_numbered 9)) (fetchPost (PostContext.posts sample_store) (Num 9))
      sample_detail
    = (setLoading false
         (with_ctx (PostContext.setPost (post_numbered 9) (ctx sample_detail)) sample_detail),
       [Net (GetById (Num 9))], Resolved tt) ∧
  run (net_down offline) (fetchPost (PostContext.posts sample_store) (Num 9)) sample_detail
    = (setLoading false sample_detail,
       [Net (GetById (Num 9)); ToastError (Str "Failed to load post"); Navigate "/"],
       Resolved tt) ∧
  run (net_ok (post_numbered 9))
      (fetchPost (PostContext.posts sample_store) (Str "constructor")) sample_detail
    = (setLoading false sample_detail, [], Resolved tt).
Proof.
  assert (PostContext.getPost (PostContext.posts sample_store) (Num 7)
          = Some (Entity sample_post)) as H7
    by apply index_own, sample_store_holds_7.
  assert (PostContext.getPost (PostContext.posts sample_store) (Num 9) = None) as H9
    by (apply index_missing; [apply sample_store_lacks_9 | reflexivity]).
  split; [exact H7|]. split; [exact H9|]. split_and!.
  - apply (proj1 (fetchPost_asks_only_when_uncached (net_down offline)
                    (PostContext.posts sample_store) (Num 7) sample_detail) _ H7).
  - apply (proj1 (proj1 (proj2 (fetchPost_asks_only_when_uncached (net_ok (post_numbered 9))
                           (PostContext.posts sample_store) (Num 9) sample_detail))
             (post_numbered 9) H9 eq_refl)).
  - apply (proj1 (proj2 (proj2 (fetchPost_asks_only_when_uncached (net_down offline)
                           (PostContext.posts sample_store) (Num 9) sample_detail)))
             offline H9 eq_refl).
  - apply (proj1 (fetchPost_asks_only_when_uncached (net_ok (post_numbered 9))
                    (PostContext.posts sample_store) (Str "constructor") sample_detail)
             (Inherited "constructor")).
    vm_compute. reflexivity.
Defined.

End DetailRuns.

(** ** Display helpers *)

Section Helpers.
Import Display.

(** [formatDate]: a date less than a minute back, or ahead of the clock,
    reads "just now"; then minutes from 1 to 59, hours from 1 to 23 and
    days from 1 to 6, never "0m ago" or "60m ago"; from a week on, and for
    an invalid date, the locale's date string. *)
Theorem formatDate_ranges (toLocaleDateString : option Z → string) (now t : Z) :
  let diffInSeconds := (now - t) / 1000 in
  (diffInSeconds < 60 → formatDate toLocaleDateString now (Some t) = "just now") ∧
  (60 ≤ diffInSeconds < 3600 →
     ∃ n, 1 ≤ n ≤ 59 ∧
          formatDate toLocaleDateString now (Some t) = (pretty n ++ "m ago")%string) ∧
  (3600 ≤ diffInSeconds < 86400 →
     ∃ n, 1 ≤ n ≤ 23 ∧
          formatDate toLocaleDateString now (Some t) = (pretty n ++ "h ago")%string) ∧
  (86400 ≤ diffInSeconds < 604800 →
     ∃ n, 1 ≤ n ≤ 6 ∧
          formatDate toLocaleDateString now (Some t) = (pretty n ++ "d ago")%string) ∧
  (604800 ≤ diffInSeconds →
     formatDate toLocaleDateString now (Some t) = toLocaleDateString (Some t)) ∧
  formatDate toLocaleDateString now None = toLocaleDateString None.
Proof.
  cbv zeta. unfold formatDate. set (d := (now - t) / 1000). split_and!.
  - intros Hd. by rewrite (proj2 (Z.ltb_lt _ _)) by lia.
  - intros Hd. rewrite (proj2 (Z.ltb_ge _ _)) by lia.
    rewrite (proj2 (Z.ltb_lt d 3600)) by lia.
    exists (d / 60). split; [|done]. split.
    + apply Z.div_le_lower_bound; lia.
    + apply Z.lt_succ_r. apply Z.div_lt_upper_bound; lia.
  - intros Hd. rewrite (proj2 (Z.ltb_ge d 60)), (proj2 (Z.ltb_ge d 3600)) by lia.
    rewrite (proj2 (Z.ltb_lt d 86400)) by lia.
    exists (d / 3600). split; [|done]. split.
    + apply Z.div_le_lower_bound; lia.
    + apply Z.lt_succ_r. apply Z.div_lt_upper_bound; lia.
  - intros Hd.
    rewrite (proj2 (Z.ltb_ge d 60)), (proj2 (Z.ltb_ge d 3600)),
      (proj2 (Z.ltb_ge d 86400)) by lia.
    rewrite (proj2 (Z.ltb_lt d 604800)) by lia.
    exists (d / 86400). split; [|done]. split.
    + apply Z.div_le_lower_bound; lia.
    + apply Z.lt_succ_r. apply Z.div_lt_upper_bound; lia.
  - intros Hd.
    by rewrite (proj2 (Z.ltb_ge d 60)), (proj2 (Z.ltb_ge d 3600)),
      (proj2 (Z.ltb_ge d 86400)), (proj2 (Z.ltb_ge d 604800)) by lia.
  - done.
Qed.

Lemma formatDate_ranges_witness :
  let toLocale : option Z → string := fun _ => "1/1/2026" in
  formatDate toLocale 1000000 (Some 2000000) = "just now" ∧
  (∃ n, 1 ≤ n ≤ 59 ∧ formatDate toLocale 3599999 (Some 0) = (pretty n ++ "m ago")%string) ∧
  formatDate toLocale 3599999 (Some 0) = "59m ago" ∧
  formatDate toLocale 3600000 (Some 0) = "1h ago" ∧
  formatDate toLocale 604800000 (Some 0) = "1/1/2026".
Proof.
  cbv zeta. split_and!.
  - apply (proj1 (formatDate_ranges (fun _ => "1/1/2026"%string) 1000000 2000000)).
    vm_compute. reflexivity.
  - apply (proj1 (proj2 (formatDate_ranges (fun _ => "1/1/2026"%string) 3599999 0))).
    split; [vm_compute; discriminate | vm_compute; reflexivity].
  - vm_compute. reflexivity.
  - vm_compute. reflexivity.
  - apply (proj1 (proj2 (proj2 (proj2 (proj2
             (formatDate_ranges (fun _ => "1/1/2026"%string) 604800000 0)))))).
    vm_compute. discriminate.
Defined.

Lemma prefix_app (p a b : string) :
  String.prefix p a = true → String.prefix p (a ++ b)%string = true.
Proof.
  revert p. induction a as [|c' a IH]; intros p Hp.
  - destruct p; [|done]. by destruct b.
  - destruct p as [|c p]; [done|]. simpl in *.
    destruct (Ascii.ascii_dec c c'); [by apply IH | done].
Qed.

Lemma slash_is_not_absolute (u : string) :
  startsWith u "/" = true → startsWith u "http://" || startsWith u "https://" = false.
Proof.
  unfold startsWith. destruct u as [|c u]; [done|]. cbn [String.prefix].
  destruct (Ascii.ascii_dec _ c) as [<-|]; [|done]. intros _. reflexivity.
Qed.

(** [normalizeProfilePicUrl]: a missing or empty url comes back as it is;
    an absolute http(s) url is untouched; a path that starts with a slash
    is put behind the API base; any other string is untouched; and when
    the API base is itself an absolute url (as the default is), whatever
    comes out is left alone by a second pass. *)
Theorem normalizeProfilePicUrl_idempotent (VITE_API_URL : val) (url : val) :
  let apiBaseUrl := to_string (Js.or VITE_API_URL (Str "http://localhost:5000")) in
  (truthy url = false → normalizeProfilePicUrl VITE_API_URL url = Some url) ∧
  (∀ u, url = Str u →
     startsWith u "http://" = true ∨ startsWith u "https://" = true →
     normalizeProfilePicUrl VITE_API_URL url = Some url) ∧
  (∀ u, url = Str u → startsWith u "/" = true →
     normalizeProfilePicUrl VITE_API_URL url = Some (Str (apiBaseUrl ++ u)%string)) ∧
  (∀ u, url = Str u →
     startsWith u "http://" = false → startsWith u "https://" = false →
     startsWith u "/" = false →
     normalizeProfilePicUrl VITE_API_URL url = Some url) ∧
  (∀ normalized,
     startsWith apiBaseUrl "http://" = true ∨ startsWith apiBaseUrl "https://" = true →
     normalizeProfilePicUrl VITE_API_URL url = Some normalized →
     normalizeProfilePicUrl VITE_API_URL normalized = Some normalized).
Proof.
  cbv zeta.
  assert (∀ u, truthy (Str u) = false → u = "") as Hempty.
  { intros u. simpl. by destruct u. }
  assert (∀ u, startsWith u "http://" || startsWith u "https://" = true →
               normalizeProfilePicUrl VITE_API_URL (Str u) = Some (Str u)) as Habsolute.
  { intros u Habs. unfold normalizeProfilePicUrl.
    destruct (truthy (Str u)); simpl negb; cbv iota; [|done]. by rewrite Habs. }
  assert (∀ u, startsWith u "/" = true →
               normalizeProfilePicUrl VITE_API_URL (Str u)
               = Some (Str (to_string (Js.or VITE_API_URL (Str "http://localhost:5000"))
                            ++ u)%string)) as Hpath.
  { intros u Hslash. unfold normalizeProfilePicUrl.
    destruct (truthy (Str u)) eqn:Htruthy; simpl negb; cbv iota.
    - by rewrite (slash_is_not_absolute _ Hslash), Hslash.
    - apply Hempty in Htruthy as ->. done. }
  assert (∀ u, startsWith u "http://" || startsWith u "https://" = false →
               startsWith u "/" = false →
               normalizeProfilePicUrl VITE_API_URL (Str u) = Some (Str u)) as Hother.
  { intros u Habs Hslash. unfold normalizeProfilePicUrl.
    destruct (truthy (Str u)); simpl negb; cbv iota; [|done]. by rewrite Habs, Hslash. }
  split_and!.
  - intros Hfalsy. unfold normalizeProfilePicUrl. by rewrite Hfalsy.
  - intros u -> Habs. apply Habsolute. apply orb_true_iff. exact Habs.
  - intros u -> Hslash. by apply Hpath.
  - intros u -> Hhttp Hhttps Hslash. apply Hother; [|done]. by rewrite Hhttp, Hhttps.
  - intros normalized Hbase.
    destruct (truthy url) eqn:Htruthy.
    2:{ unfold normalizeProfilePicUrl at 1. rewrite Htruthy. simpl. intros [= <-].
        unfold normalizeProfilePicUrl. by rewrite Htruthy. }
    destruct url as [| |b|n| |u]; try (unfold normalizeProfilePicUrl; by rewrite Htruthy).
    destruct (startsWith u "http://" || startsWith u "https://") eqn:Habs.
    { rewrite (Habsolute _ Habs). intros [= <-]. by apply Habsolute. }
    destruct (startsWith u "/") eqn:Hslash.
    + rewrite (Hpath _ Hslash). intros [= <-]. apply Habsolute.
      unfold startsWith in *. apply orb_true_iff.
      destruct Hbase as [Hb|Hb]; [left|right]; by apply prefix_app.
    + rewrite (Hother _ Habs Hslash). intros [= <-]. by apply Hother.
Qed.

Lemma normalizeProfilePicUrl_idempotent_witness :
  normalizeProfilePicUrl Undefined (Str "/static/profile_pics/ann.png")
    = Some (Str "http://localhost:5000/static/profile_pics/ann.png") ∧
  normalizeProfilePicUrl Undefined (Str "http://localhost:5000/static/profile_pics/ann.png")
    = Some (Str "http://localhost:5000/static/profile_pics/ann.png") ∧
  normalizeProfilePicUrl Undefined (Str "https://cdn.example.org/ann.png")
    = Some (Str "https://cdn.example.org/ann.png") ∧
  normalizeProfilePicUrl Undefined (Str "ann.png") = Some (Str "ann.png") ∧
  normalizeProfilePicUrl Undefined Null = Some Null.
Proof.
  pose proof (normalizeProfilePicUrl_idempotent Undefined
                (Str "/static/profile_pics/ann.png")) as (_ & _ & Hpath & _ & Hagain).
  pose proof (normalizeProfilePicUrl_idempotent Undefined
                (Str "https://cdn.example.org/ann.png")) as (_ & Habs & _).
  pose proof (normalizeProfilePicUrl_idempotent Undefined (Str "ann.png"))
    as (_ & _ & _ & Hother & _).
  pose proof (normalizeProfilePicUrl_idempotent Undefined Null) as (Hnull & _).
  assert (normalizeProfilePicUrl Undefined (Str "/static/profile_pics/ann.png")
          = Some (Str "http://localhost:5000/static/profile_pics/ann.png")) as Hfirst
    by (apply (Hpath "/static/profile_pics/ann.png"); reflexivity).
  split_and!.
  - exact Hfirst.
  - apply Hagain; [by left | exact Hfirst].
  - apply (Habs "https://cdn.example.org/ann.png"); [reflexivity | by right].
  - apply (Hother "ann.png"); reflexivity.
  - apply Hnull. reflexivity.
Defined.

End Helpers.
